(** * Enrichment engine of the CRM lead pipeline

    A shallow embedding of [src/transform/assignment_handler.py]: the queue
    consumer that reads a raw lead object, looks its owner up in a remote
    directory (with a transient/permanent error taxonomy and a small retry
    budget), writes a curated artifact (and an error artifact on a permanent
    failure) and posts a best-effort notification.

    Python values are modelled by the type [json]; exceptions by [PyExc];
    the handler runs in a state-and-exception monad [M] over the object
    store and a trace of the effects performed.  Library functions whose
    code is not part of the repository ([json.loads], [json.dumps],
    [urllib.parse.unquote_plus], [urllib.request.urlopen], the secrets
    client, the clock, the acceptance of a write by the object store) are
    fields of a record [World]. *)

From Stdlib Require Import ZArith Lia Ascii String.
From stdpp Require Import base option list strings pretty gmap fin_maps.

Open Scope string_scope.
Open Scope Z_scope.

(** ** Python values *)

(** What [json.loads] can return, which is also what the Lambda runtime
    hands over as [event]: [None], booleans, numbers, strings, lists and
    dictionaries with string keys.  A float is kept as mantissa and decimal
    exponent. *)
#[warnings="-register-all"]
Inductive json : Type :=
  | JNull
  | JBool (b : bool)
  | JInt (n : Z)
  | JFloat (mantissa exponent : Z)
  | JStr (s : string)
  | JList (l : list json)
  | JDict (d : gmap string json).

(** [type(v).__name__] *)
Definition py_type_name (v : json) : string :=
  match v with
  | JNull => "NoneType"
  | JBool _ => "bool"
  | JInt _ => "int"
  | JFloat _ _ => "float"
  | JStr _ => "str"
  | JList _ => "list"
  | JDict _ => "dict"
  end.

(** Truth value of an object, as tested by [if v:], [not v] and [v or w]. *)
Definition py_truthy (v : json) : bool :=
  match v with
  | JNull => false
  | JBool b => b
  | JInt n => negb (n =? 0)
  | JFloat m _ => negb (m =? 0)
  | JStr s => negb (String.eqb s EmptyString)
  | JList l => match l with [] => false | _ => true end
  | JDict d => negb (bool_decide (d = ∅))
  end.

(** [a or b] *)
Definition py_or (a b : json) : json := if py_truthy a then a else b.

(** ** Exceptions *)

(** The part of the exception hierarchy that the handler inspects:
    [urllib.error.HTTPError] (which carries a status code and is a subclass
    of [urllib.error.URLError]), [URLError] itself, and everything else. *)
Inductive exc_base : Type :=
  | HTTPError (code : Z)
  | URLError
  | OtherException.

Record PyExc : Type := mkExc {
  exc_type : string;      (* type(e).__name__ *)
  exc_kind : exc_base;    (* where the class sits in the hierarchy *)
  exc_str  : string;      (* str(e) *)
}.

Definition plain_exc (name msg : string) : PyExc :=
  mkExc name OtherException msg.

Definition http_error (code : Z) (msg : string) : PyExc :=
  mkExc "HTTPError" (HTTPError code) msg.

Definition url_error (msg : string) : PyExc :=
  mkExc "URLError" URLError msg.

(** [isinstance(err, urllib.error.HTTPError)] *)
Definition isinstance_HTTPError (err : PyExc) : bool :=
  match exc_kind err with HTTPError _ => true | _ => false end.

(** [isinstance(err, urllib.error.URLError)]: true of an HTTPError too. *)
Definition isinstance_URLError (err : PyExc) : bool :=
  match exc_kind err with HTTPError _ | URLError => true | OtherException => false end.

(** [err.code] of an HTTPError *)
Definition exc_code (err : PyExc) : Z :=
  match exc_kind err with HTTPError c => c | _ => 0 end.

(** Outcome of a computation: a value or a raised exception. *)
Inductive Res (A : Type) : Type :=
  | Ok (a : A)
  | Raise (e : PyExc).
Arguments Ok {A} a.
Arguments Raise {A} e.

#[global] Instance Res_ret : MRet Res := @Ok.
#[global] Instance Res_bind : MBind Res := fun A B f r =>
  match r with Ok a => f a | Raise e => Raise e end.

Definition is_Ok {A} (r : Res A) : Prop := ∃ a, r = Ok a.
Definition is_Raise {A} (r : Res A) : Prop := ∃ e, r = Raise e.

(** ** Constants of the module *)

Definition RAW_PREFIX : string := "crm/lead_created".
Definition CURATED_PREFIX : string := "crm/lead_enriched".
Definition ERR_PREFIX : string := "crm/errors".
Definition RETRY_TRANSIENT : nat := 2.

(** ** Error classification *)

(** [classify_lookup_error]: the two [if]s under the HTTPError test fall
    through when the code is neither 4xx nor 5xx. *)
Definition classify_lookup_error (err : PyExc) : string :=
  if isinstance_HTTPError err && (400 <=? exc_code err) && (exc_code err <? 500)
  then "permanent"
  else if isinstance_HTTPError err && (500 <=? exc_code err) && (exc_code err <? 600)
  then "transient"
  else if isinstance_URLError err
  then "transient"
  else "unknown".

(** ** Strings *)

(** A Python [str] is modelled by the bytes of its UTF-8 encoding; a lone
    surrogate, which [json.loads] accepts in an escape such as ["\ud800"], by
    the three bytes that the scheme gives its code point (ED, then A0..BF,
    then a continuation byte).  Concatenation, comparison, prefix tests,
    search and splitting at an ASCII separator are the same on these bytes
    as on the characters; slicing, iteration and [str.encode] are not, and
    go by characters below. *)

(** A continuation byte, [10xxxxxx]: it belongs to the character begun
    before it. *)
Definition utf8_continuation (c : ascii) : bool :=
  match c with
  | Ascii _ _ _ _ _ _ false true => true
  | _ => false
  end.

(** [s[:n]]: the first [n] characters of [s]. *)
Fixpoint str_take (n : nat) (s : string) : string :=
  match s with
  | EmptyString => EmptyString
  | String c s' =>
      if utf8_continuation c then String c (str_take n s')
      else match n with
           | O => EmptyString
           | S n' => String c (str_take n' s')
           end
  end.

(** [s] goes on with the character begun before it. *)
Definition mid_character (s : string) : bool :=
  match s with
  | String c _ => utf8_continuation c
  | EmptyString => false
  end.

(** The characters of [s], each as a text. *)
Fixpoint str_chars (s : string) : list string :=
  match s with
  | EmptyString => []
  | String c s' =>
      match str_chars s' with
      | w :: ws =>
          if mid_character s' then String c w :: ws
          else String c EmptyString :: w :: ws
      | [] => [String c EmptyString]
      end
  end.

(** [s] begins with a surrogate, [U+D800] to [U+DFFF]: the byte ED, then a
    byte from A0 to BF. *)
Definition surrogate_at (s : string) : bool :=
  match s with
  | String (Ascii true false true true false true true true)
      (String (Ascii _ _ _ _ _ true false true) _) => true
  | _ => false
  end.

Fixpoint has_surrogate (s : string) : bool :=
  surrogate_at s ||
  match s with
  | EmptyString => false
  | String _ s' => has_surrogate s'
  end.

(** The index of the first surrogate of [s], counted in characters from
    [pos], and the text from there on. *)
Fixpoint first_surrogate (pos : nat) (s : string) : option (nat * string) :=
  if surrogate_at s then Some (pos, s)
  else match s with
       | EmptyString => None
       | String c s' => first_surrogate (if utf8_continuation c then pos else S pos) s'
       end.

(** The number of surrogates that [s] begins with. *)
Fixpoint surrogate_run (s : string) : nat :=
  match s with
  | String _ (String _ (String _ s')) => if surrogate_at s then S (surrogate_run s') else O
  | _ => O
  end.

Definition hex_digit (n : nat) : string :=
  String.substring (n mod 16) 1 "0123456789abcdef".

(** The escape ['\udxxx'] that [repr] gives the surrogate [s] begins with. *)
Definition surrogate_repr (s : string) : string :=
  match s with
  | String _ (String c2 (String c3 _)) =>
      let cp := (13 * 4096 + (nat_of_ascii c2 mod 64) * 64 + nat_of_ascii c3 mod 64)%nat in
      "'\u" +:+ hex_digit (cp / 4096) +:+ hex_digit (cp / 256) +:+ hex_digit (cp / 16)
        +:+ hex_digit cp +:+ "'"
  | _ => "'\ud800'"
  end.

(** The UnicodeEncodeError of [s.encode("utf-8")]: it names the first
    surrogate of [s], or the positions of the first run of them. *)
Definition encode_error (s : string) : PyExc :=
  match first_surrogate 0 s with
  | Some (pos, rest) =>
      let n := surrogate_run rest in
      plain_exc "UnicodeEncodeError"
        ("'utf-8' codec can't encode "
         +:+ (if (n <=? 1)%nat
              then "character " +:+ surrogate_repr rest +:+ " in position " +:+ pretty pos
              else "characters in position " +:+ pretty pos +:+ "-"
                   +:+ pretty (pos + n - 1)%nat)
         +:+ ": surrogates not allowed")
  | None => plain_exc "UnicodeEncodeError" "surrogates not allowed"
  end.

(** [s.encode("utf-8")]: a text with a surrogate cannot be encoded; any
    other text is its own encoding. *)
Definition encode_utf8 (s : string) : Res string :=
  if has_surrogate s then Raise (encode_error s) else Ok s.

(** [s.split(sep)] and [s.split(sep, maxsplit)] for a one-character
    separator; [maxsplit = None] is Python's default (no limit). *)
Fixpoint str_split (sep : ascii) (maxsplit : option nat) (s : string) : list string :=
  match maxsplit with
  | Some O => [s]
  | _ =>
    match s with
    | EmptyString => [EmptyString]
    | String c s' =>
        if Ascii.eqb c sep
        then EmptyString :: str_split sep (pred <$> maxsplit) s'
        else match str_split sep maxsplit s' with
             | w :: ws => String c w :: ws
             | [] => [String c EmptyString]
             end
    end
  end.

(** [l[i]] on a list: IndexError out of range. *)
Definition py_index {A} (l : list A) (i : nat) : Res A :=
  match l !! i with
  | Some x => Ok x
  | None => Raise (plain_exc "IndexError" "list index out of range")
  end.

(** [needle in hay] on strings *)
Fixpoint str_contains (needle hay : string) : bool :=
  String.prefix needle hay ||
  match hay with
  | EmptyString => false
  | String _ hay' => str_contains needle hay'
  end.

(** ** Key parsing and key derivation *)

(** Lines 127-135 of the handler, on the already unquoted key: [Ok None] is
    [continue] (the key is skipped), [Ok (Some (day, lead_id))] the parsed
    pair, [Raise] an exception leaving the handler. *)
Definition parse_key (key : string) : Res (option (string * string)) :=
  if negb (String.prefix (RAW_PREFIX +:+ "/") key) then Ok None
  else
    let parts := str_split "/"%char None key in
    if (length parts <? 5)%nat
       || negb (bool_decide (parts !! 0%nat = Some "crm"))
       || negb (bool_decide (parts !! 1%nat = Some "lead_created"))
    then Ok None
    else
      p2 ← py_index parts 2;
      day ← py_index (str_split "="%char (Some 1%nat) p2) 1;
      p3 ← py_index parts 3;
      lead_id ← py_index (str_split "="%char (Some 1%nat) p3) 1;
      Ok (Some (day, lead_id)).

(** The raw key written by the ingestion handler. *)
Definition raw_key (day lead_id : string) : string :=
  RAW_PREFIX +:+ "/dt=" +:+ day +:+ "/lead_id=" +:+ lead_id
    +:+ "/crm_event_" +:+ lead_id +:+ ".json".

(** [out_key] of the handler *)
Definition curated_key (day lead_id : string) : string :=
  CURATED_PREFIX +:+ "/dt=" +:+ day +:+ "/lead_id=" +:+ lead_id
    +:+ "/lead_" +:+ lead_id +:+ ".json".

(** [key] of [_write_error_artifact] *)
Definition error_key (day lead_id : string) : string :=
  ERR_PREFIX +:+ "/dt=" +:+ day +:+ "/lead_id=" +:+ lead_id
    +:+ "/owner_lookup_failed.json".

(** ** The world outside the handler *)

(** Effects, in the order the handler performs them (the trace of a state
    holds the newest first). *)
Inductive Effect : Type :=
  | EGetObject (bucket key : string)                 (* s3.get_object *)
  | EPutObject (bucket key : string) (payload : json) (* s3.put_object *)
  | EHttpGet (url : string)                          (* urlopen(owner_url) *)
  | ESleep                                           (* time.sleep *)
  | ENow                                             (* datetime.now *)
  | EGetSecret (name : string)                       (* secrets.get_secret_value *)
  | EHttpPost (url data : string)                    (* urlopen(req) *)
  | EPrint (line : string).                          (* print *)

(** The object store holds the text of each object under (bucket, key). *)
Record State : Type := mkState {
  s3_objects : gmap (string * string) string;
  trace : list Effect;
}.

(** Library functions and remote services.  A service answers as a function
    of the history of effects so far, so that successive calls may differ. *)
Record World : Type := mkWorld {
  json_loads : string → Res json;           (* json.loads on a text *)
  json_dumps : bool → json → string;        (* json.dumps; true: compact separators *)
  unquote_plus : string → string;           (* urllib.parse.unquote_plus *)
  py_repr : json → string;                  (* str() of a value that is not a str *)
  now_iso : list Effect → string;           (* datetime.now(timezone.utc).isoformat() *)
  urlopen_get : list Effect → string → Res string;  (* urlopen(url).read() *)
  get_secret_value : list Effect → string → Res json;
  Request : json → Res string;              (* urllib.request.Request(url, ...) *)
  urlopen_post : list Effect → string → string → Res (Z * string);
                                            (* urlopen(req): (resp.getcode(), body) *)
  error_body : PyExc → Res string;          (* e.read().decode("utf-8", "ignore") *)
  put_object : list Effect → string → string → string → Res unit;
                                            (* s3.put_object(Bucket, Key, Body) *)
}.

(** The environment variables read at import time. *)
Record Config : Type := mkConfig {
  SKIP_OWNER_LOOKUP : bool;
  OWNER_BASE : string;
  CURATED_BUCKET : string;
  ERROR_BUCKET : string;
  SLACK_SECRET_NAME : option string;
}.

(** ** The monad of the handler: state and exceptions *)

Definition M (A : Type) : Type := State → Res A * State.

#[global] Instance M_ret : MRet M := fun A a st => (Ok a, st).
#[global] Instance M_bind : MBind M := fun A B f m st =>
  match m st with
  | (Ok a, st') => f a st'
  | (Raise e, st') => (Raise e, st')
  end.

Definition raise {A} (e : PyExc) : M A := fun st => (Raise e, st).

Definition lift {A} (r : Res A) : M A := fun st => (r, st).

(** [try: m  except Exception as e: h e] *)
Definition try_except {A} (m : M A) (h : PyExc → M A) : M A := fun st =>
  match m st with
  | (Ok a, st') => (Ok a, st')
  | (Raise e, st') => h e st'
  end.

Definition emit (ev : Effect) : M unit := fun st =>
  (Ok tt, mkState (s3_objects st) (ev :: trace st)).

Definition history : M (list Effect) := fun st => (Ok (trace st), st).

(** An accepted put: the object is stored and the write recorded. *)
Definition store_put (bucket key body : string) (payload : json) : M unit := fun st =>
  (Ok tt, mkState (<[(bucket, key) := body]> (s3_objects st))
                  (EPutObject bucket key payload :: trace st)).

(** A [for] loop whose body may [return]: [Some r] leaves the loop (and the
    function) with [r], [None] goes on with the next element. *)
Fixpoint for_return {A R} (l : list A) (body : A → M (option R)) : M (option R) :=
  match l with
  | [] => mret None
  | x :: l' =>
      r ← body x;
      match r with
      | Some v => mret (Some v)
      | None => for_return l' body
      end
  end.

(** A [for] loop whose body runs to its end or [continue]s. *)
Fixpoint for_each {A} (l : list A) (body : A → M unit) : M unit :=
  match l with
  | [] => mret tt
  | x :: l' => body x;; for_each l' body
  end.

(** ** Operations on Python values *)

Definition AttributeError (v : json) (attr : string) : PyExc :=
  plain_exc "AttributeError"
    ("'" +:+ py_type_name v +:+ "' object has no attribute '" +:+ attr +:+ "'").

Definition TypeError (msg : string) : PyExc := plain_exc "TypeError" msg.

(** [d.get(k, default)] *)
Definition py_get (d : json) (k : string) (default : json) : Res json :=
  match d with
  | JDict m => Ok (from_option id default (m !! k))
  | _ => Raise (AttributeError d "get")
  end.

(** [d[k]] with a string [k] *)
Definition py_getitem (d : json) (k : string) : Res json :=
  match d with
  | JDict m =>
      match m !! k with
      | Some v => Ok v
      | None => Raise (plain_exc "KeyError" k)
      end
  | JList _ => Raise (TypeError "list indices must be integers or slices, not str")
  | JStr _ => Raise (TypeError "string indices must be integers, not 'str'")
  | _ => Raise (TypeError ("'" +:+ py_type_name d +:+ "' object is not subscriptable"))
  end.

(** [k in d] with a string [k] *)
Definition py_contains (k : string) (d : json) : Res bool :=
  match d with
  | JDict m => Ok (bool_decide (is_Some (m !! k)))
  | JList l => Ok (existsb (λ v, match v with JStr s => String.eqb s k | _ => false end) l)
  | JStr s => Ok (str_contains k s)
  | _ => Raise (TypeError ("argument of type '" +:+ py_type_name d +:+ "' is not iterable"))
  end.

(** The elements a [for] loop over [v] visits. *)
Definition py_iter (v : json) : Res (list json) :=
  match v with
  | JList l => Ok l
  | JDict m => Ok (JStr <$> (map_to_list m).*1)
  | JStr s => Ok (JStr <$> str_chars s)
  | _ => Raise (TypeError ("'" +:+ py_type_name v +:+ "' object is not iterable"))
  end.

(** [raw.get("event", {}).get("data", {})] *)
Definition raw_data (raw : json) : Res json :=
  ev ← py_get raw "event" (JDict ∅);
  py_get ev "data" (JDict ∅).

(** ** The handler *)

Section Handler.

Context (W : World) (cfg : Config).

(** [json.loads(v)]: only a text can be decoded. *)
Definition loads (v : json) : Res json :=
  match v with
  | JStr s => json_loads W s
  | _ => Raise (TypeError ("the JSON object must be str, bytes or bytearray, not "
                            +:+ py_type_name v))
  end.

(** A value inside an f-string. *)
Definition py_format (v : json) : string :=
  match v with
  | JStr s => s
  | _ => py_repr W v
  end.

Definition _now_iso : M string :=
  h ← history;
  emit ENow;;
  mret (now_iso W h).

(** [s3.get_object(Bucket=bucket, Key=key)["Body"].read()]: the store is
    taken to be reachable, so the call fails only on a bucket name that is
    not a text and on a key that is absent. *)
Definition s3_get_object (bucket : json) (key : string) : M string :=
  match bucket with
  | JStr b =>
      emit (EGetObject b key);;
      (λ st, match s3_objects st !! (b, key) with
             | Some body => (Ok body, st)
             | None => (Raise (plain_exc "ClientError" "NoSuchKey"), st)
             end) : M string
  | _ => raise (plain_exc "ParamValidationError" "Bucket")
  end.

Definition _read_json_from_s3 (bucket : json) (key : string) : M json :=
  body ← s3_get_object bucket key;
  lift (json_loads W body).

(** [_write_json_to_s3]: the text of the payload is encoded, which raises
    on a surrogate, and handed to [s3.put_object], which may refuse it; an
    accepted object replaces the one under its key (all-or-nothing per key,
    last write wins), and only an accepted write is recorded in the trace. *)
Definition _write_json_to_s3 (bucket key : string) (payload : json) : M unit :=
  body ← lift (encode_utf8 (json_dumps W true payload));
  h ← history;
  lift (put_object W h bucket key body);;
  store_put bucket key body payload.

(** The body of the [try] in [fetch_owner_json]: one request. *)
Definition owner_request (owner_url : string) : M json :=
  h ← history;
  emit (EHttpGet owner_url);;
  text ← lift (urlopen_get W h owner_url);
  lift (json_loads W text).

(** The [for _ in range(n)] loop of [fetch_owner_json] and the [raise last]
    after it. *)
Fixpoint fetch_owner_loop (owner_url : string) (n : nat) (last : option PyExc) : M json :=
  match n with
  | O =>
      match last with
      | Some e => raise e
      | None => raise (TypeError "exceptions must derive from BaseException")
      end
  | S n' =>
      try_except (owner_request owner_url)
        (λ e, if String.eqb (classify_lookup_error e) "permanent"
              then raise e
              else emit ESleep;; fetch_owner_loop owner_url n' (Some e))
  end.

Definition fetch_owner_json (owner_url : string) : M json :=
  fetch_owner_loop owner_url (RETRY_TRANSIENT + 1) None.

Definition _write_error_artifact (day lead_id reason : string)
    (extra : option (gmap string json)) : M unit :=
  let key := error_key day lead_id in
  now ← _now_iso;
  let payload : gmap string json :=
    list_to_map [("lead_id", JStr lead_id); ("reason", JStr reason); ("at", JStr now)] in
  let payload :=
    match extra with
    | Some x => if py_truthy (JDict x) then x ∪ payload else payload
    | None => payload
    end in
  _write_json_to_s3 (ERROR_BUCKET cfg) key (JDict payload).

(** [_slack_url]: [JNull] stands for [None]. *)
Definition _slack_url : M json :=
  match SLACK_SECRET_NAME cfg with
  | None => mret JNull
  | Some name =>
      if String.eqb name EmptyString then mret JNull
      else
        try_except
          (h ← history;
           emit (EGetSecret name);;
           sec ← lift (get_secret_value W h name);
           s ← lift (py_get sec "SecretString" JNull);
           data ← lift (loads (py_or s (JStr "{}")));
           u1 ← lift (py_get data "url" JNull);
           if py_truthy u1 then mret u1
           else
             u2 ← lift (py_get data "webhook" JNull);
             if py_truthy u2 then mret u2
             else lift (py_get data "SLACK_WEBHOOK_URL" JNull))
          (λ e,
           emit (EPrint ("[slack] failed to read secret " +:+ name +:+ ": " +:+ exc_str e));;
           mret JNull)
  end.

(** [_post_slack]: the request object is built before the [try], and the
    body of an HTTP error answer is read inside its [except] clause, where
    no handler covers it.  [json.dumps(payload)] escapes every character
    that is not ASCII, so that encoding its text cannot fail. *)
Definition _post_slack (webhook_url : json) (payload : json) : M (Z * string) :=
  let data := json_dumps W false payload in
  req ← lift (Request W webhook_url);
  try_except
    (h ← history;
     emit (EHttpPost req data);;
     lift (urlopen_post W h req data))
    (λ e, if isinstance_HTTPError e
          then body ← lift (error_body W e); mret (exc_code e, body)
          else mret (0, exc_str e)).

(** Lines 163-174: the merge of the data block of the raw object and the
    owner record into the curated artifact. *)
Definition build_enriched (data owner_payload : json) (lead_id lookup_status : string)
    : M json :=
  display_name ← lift (py_get data "display_name" JNull);
  status_label ← lift (py_get data "status_label" JNull);
  date_created ← lift (py_get data "date_created" JNull);
  lead_email ← lift (py_get owner_payload "lead_email" JNull);
  lead_owner ← lift (py_get owner_payload "lead_owner" JNull);
  funnel ← lift (py_get owner_payload "funnel" JNull);
  assignee ← lift (py_get owner_payload "lead_owner" JNull);
  enriched_at ← _now_iso;
  mret (JDict (list_to_map
    [("lead_id", JStr lead_id);
     ("display_name", display_name);
     ("status_label", status_label);
     ("date_created", date_created);
     ("lead_email", lead_email);
     ("lead_owner", lead_owner);
     ("funnel", funnel);
     ("assignee", assignee);
     ("enriched_at", JStr enriched_at);
     ("owner_lookup_status", JStr lookup_status)])).

(** Lines 141-161: the owner lookup, its classification and the error
    artifact; the result is [(owner_payload, lookup_status)]. *)
Definition lookup_owner (day lead_id : string) : M (json * string) :=
  if SKIP_OWNER_LOOKUP cfg then mret (JDict ∅, "skipped")
  else
    let owner_url := OWNER_BASE cfg +:+ "/" +:+ lead_id +:+ ".json" in
    try_except
      (owner_payload ← fetch_owner_json owner_url;
       mret (owner_payload, "ok"))
      (λ e,
       let kind := classify_lookup_error e in
       if String.eqb kind "permanent"
       then
         _write_error_artifact day lead_id ("permanent:" +:+ exc_type e)
           (Some {[ "detail" := JStr (exc_str e) ]});;
         mret (JDict ∅, "permanent_failed")
       else raise e).

(** The line feed of the f-strings *)
Definition nl : string := String (ascii_of_nat 10) EmptyString.

Definition mrkdwn (text : string) : json :=
  JDict (list_to_map [("type", JStr "mrkdwn"); ("text", JStr text)]).

(** The [enriched.get(k) or alt] of the message fields. *)
Definition field_or (enriched : json) (k alt : string) : Res string :=
  v ← py_get enriched k JNull;
  Ok (py_format (py_or v (JStr alt))).

Definition slack_message (enriched : json) (lead_id : string) : Res json :=
  name ← field_or enriched "display_name" "N/A";
  created ← field_or enriched "date_created" "N/A";
  label ← field_or enriched "status_label" "N/A";
  email ← field_or enriched "lead_email" "N/A";
  owner ← field_or enriched "lead_owner" "Unassigned";
  funnel ← field_or enriched "funnel" "N/A";
  stamp ← py_getitem enriched "enriched_at";
  Ok (JDict (list_to_map
    [("text", JStr "New Lead Alert");
     ("blocks", JList
        [JDict (list_to_map
           [("type", JStr "header");
            ("text", JDict (list_to_map
               [("type", JStr "plain_text"); ("text", JStr "New Lead Enriched")]))]);
         JDict (list_to_map
           [("type", JStr "section");
            ("fields", JList
               [mrkdwn ("*Name:*" +:+ nl +:+ name);
                mrkdwn ("*Lead ID:*" +:+ nl +:+ lead_id);
                mrkdwn ("*Created:*" +:+ nl +:+ created);
                mrkdwn ("*Label:*" +:+ nl +:+ label);
                mrkdwn ("*Email:*" +:+ nl +:+ email);
                mrkdwn ("*Lead Owner:*" +:+ nl +:+ owner);
                mrkdwn ("*Funnel:*" +:+ nl +:+ funnel)])]);
         JDict (list_to_map
           [("type", JStr "context");
            ("elements", JList [mrkdwn ("Enriched at " +:+ py_format stamp)])])])])).

(** Lines 180-199: the notification step. *)
Definition notify (enriched : json) (lead_id : string) : M unit :=
  hook ← _slack_url;
  if py_truthy hook then
    msg ← lift (slack_message enriched lead_id);
    '(status, body) ← _post_slack hook msg;
    emit (EPrint ("[slack] post status=" +:+ pretty status +:+ " body=" +:+ str_take 200 body))
  else mret tt.

(** [rec["s3"]["bucket"]["name"]] *)
Definition rec_bucket (rec : json) : Res json :=
  s ← py_getitem rec "s3";
  b ← py_getitem s "bucket";
  py_getitem b "name".

(** [urllib.parse.unquote_plus(rec["s3"]["object"]["key"])] *)
Definition rec_key (rec : json) : Res string :=
  s ← py_getitem rec "s3";
  o ← py_getitem s "object";
  k ← py_getitem o "key";
  match k with
  | JStr k => Ok (unquote_plus W k)
  | _ => Raise (AttributeError k "replace")
  end.

(** The body of the inner loop, for one record of the object-store event. *)
Definition process_rec (rec : json) : M unit :=
  bucket ← lift (rec_bucket rec);
  key ← lift (rec_key rec);
  parsed ← lift (parse_key key);
  match parsed with
  | None => mret tt
  | Some (day, lead_id) =>
      raw ← _read_json_from_s3 bucket key;
      data ← lift (raw_data raw);
      '(owner_payload, lookup_status) ← lookup_owner day lead_id;
      enriched ← build_enriched data owner_payload lead_id lookup_status;
      _write_json_to_s3 (CURATED_BUCKET cfg) (curated_key day lead_id) enriched;;
      notify enriched lead_id
  end.

(** The body of the outer loop, for one queue record; it ends with the
    [return] of the handler. *)
Definition process_record (record : json) : M (option json) :=
  body_text ← lift (py_getitem record "body");
  body ← lift (loads body_text);
  wrapped ← lift (py_contains "Message" body);
  s3_event ← (if wrapped : bool
              then lift (m ← py_get body "Message" JNull; loads m)
              else mret body);
  recs ← lift (r ← py_get s3_event "Records" (JList []); py_iter r);
  for_each recs process_rec;;
  mret (Some (JDict {[ "ok" := JBool true ]})).

Definition lambda_handler (event : json) : M json :=
  records ← lift (r ← py_get event "Records" (JList []); py_iter r);
  result ← for_return records process_record;
  mret (from_option id JNull result).

End Handler.

(** ** Reading a trace *)

(** The lookup-service requests of a trace. *)
Definition http_gets (tr : list Effect) : list string :=
  omap (λ ev, match ev with EHttpGet url => Some url | _ => None end) tr.

(** The payloads written at [key] of [bucket], newest first. *)
Definition puts_at (bucket key : string) (tr : list Effect) : list json :=
  omap (λ ev, match ev with
              | EPutObject b k p =>
                  if String.eqb b bucket && String.eqb k key then Some p else None
              | _ => None
              end) tr.

(** The objects read, newest first. *)
Definition gets_of (tr : list Effect) : list (string * string) :=
  omap (λ ev, match ev with EGetObject b k => Some (b, k) | _ => None end) tr.

(** The trace of [n] failed attempts of [fetch_owner_json], each followed
    by its back-off sleep, on top of [tr]. *)
Definition retry_trace (url : string) (n : nat) (tr : list Effect) : list Effect :=
  Nat.iter n (λ t, ESleep :: EHttpGet url :: t) tr.

(** [d.get(k)] read off a payload, [JNull] when [d] is no dictionary. *)
Definition field (k : string) (d : json) : json :=
  match d with
  | JDict m => from_option id JNull (m !! k)
  | _ => JNull
  end.

(** A key under the curated prefix. *)
Definition is_curated_key (key : string) : bool :=
  String.prefix (CURATED_PREFIX +:+ "/") key.

(** [c in s] for a character *)
Fixpoint str_has (c : ascii) (s : string) : bool :=
  match s with
  | EmptyString => false
  | String c' s' => Ascii.eqb c' c || str_has c s'
  end.

(** Raw objects over which the merge is defined: an object whose [event],
    when present, is an object, whose [data], when present, is an object. *)
Definition raw_fields (raw : json) : option (gmap string json) :=
  match raw with
  | JDict r =>
      match r !! "event" with
      | None => Some ∅
      | Some (JDict ev) =>
          match ev !! "data" with
          | None => Some ∅
          | Some (JDict data) => Some data
          | Some _ => None
          end
      | Some _ => None
      end
  | _ => None
  end.

(** The notification target, when one is resolved, is a URL that
    [urllib.request.Request] accepts. *)
Definition hook_wellformed (W : World) (cfg : Config) : Prop :=
  ∀ st hook,
    fst (_slack_url W cfg st) = Ok hook → py_truthy hook = true →
    is_Ok (Request W hook).

(** The exception [e] comes from reading the body of an HTTP error answer
    to the POST, in the [except] clause of [_post_slack]. *)
Definition error_body_raises (W : World) (e : PyExc) : Prop :=
  ∃ h req data err,
    urlopen_post W h req data = Raise err
    ∧ isinstance_HTTPError err = true
    ∧ error_body W err = Raise e.

(** The body of every HTTP error answer can be read. *)
Definition error_bodies_readable (W : World) : Prop :=
  ∀ err, isinstance_HTTPError err = true → is_Ok (error_body W err).

(** ** A concrete world for the examples *)

Definition dq : string := String (ascii_of_nat 34) EmptyString.

Definition str_join (sep : string) (l : list string) : string :=
  match l with
  | [] => EmptyString
  | x :: xs => fold_left (λ acc y, acc +:+ sep +:+ y) xs x
  end.

(** A JSON printer for texts without characters to escape; [compact] picks
    the separators of [json.dumps(..., separators=(",", ":"))]. *)
Fixpoint show_json (compact : bool) (j : json) : string :=
  let comma := if compact then "," else ", " in
  let colon := if compact then ":" else ": " in
  match j with
  | JNull => "null"
  | JBool true => "true"
  | JBool false => "false"
  | JInt n => pretty n
  | JFloat m e => pretty m +:+ "e" +:+ pretty e
  | JStr s => dq +:+ s +:+ dq
  | JList l => "[" +:+ str_join comma (map (show_json compact) l) +:+ "]"
  | JDict d =>
      "{" +:+ str_join comma
                (map_fold (λ k v acc, (dq +:+ k +:+ dq +:+ colon +:+ show_json compact v) :: acc)
                          [] d) +:+ "}"
  end.

(** The object-store notification for one key. *)
Definition s3_event_for (bucket key : string) : json :=
  JDict {[ "Records" := JList [
    JDict {[ "s3" := JDict (list_to_map
      [("bucket", JDict {[ "name" := JStr bucket ]});
       ("object", JDict {[ "key" := JStr key ]})]) ]} ] ]}.

(** A queue record whose body is the text of [body]. *)
Definition sqs_record (body : json) : json :=
  JDict {[ "body" := JStr (show_json true body) ]}.

Definition demo_raw (lead_id : string) : json :=
  JDict (list_to_map
    [("lead_id", JStr lead_id);
     ("event", JDict (list_to_map
        [("lead_id", JStr lead_id);
         ("data", JDict (list_to_map
            [("display_name", JStr "Jane Doe");
             ("date_created", JStr "2024-03-01T10:00:00")]))]));
     ("ingested_at", JStr "2024-03-01T10:00:05+00:00");
     ("assignee", JNull);
     ("enrichment_status", JStr "pending")]).

(** A raw object that the ingestion handler stores as it is: its
    [event.data] is [null]. *)
Definition demo_raw_null_data : json :=
  JDict (list_to_map
    [("lead_id", JStr "L3");
     ("event", JDict (list_to_map [("lead_id", JStr "L3"); ("data", JNull)]));
     ("ingested_at", JStr "2024-03-01T10:00:05+00:00");
     ("assignee", JNull);
     ("enrichment_status", JStr "pending")]).

Definition demo_owner : json :=
  JDict (list_to_map [("lead_owner", JStr "alice"); ("lead_email", JStr "a@x.com")]).

Definition demo_key (lead_id : string) : string := raw_key "2024-03-01" lead_id.

(** A key with the prefix and the five segments, but no [dt=] marker. *)
Definition demo_key_no_marker : string :=
  "crm/lead_created/2024-03-01/lead_id=42/crm_event_42.json".

Definition demo_secret_bad : json :=
  JDict {[ "url" := JStr "hooks.slack.example/services/T0/B0/X" ]}.

Definition demo_secret_good : json :=
  JDict {[ "url" := JStr "https://hooks.slack.example/services/T0/B0/X" ]}.

(** The documents whose text the decoder of the examples knows. *)
Definition demo_documents : list json :=
  [ s3_event_for "raw-bucket" (demo_key "L1");
    s3_event_for "raw-bucket" (demo_key "L2");
    s3_event_for "raw-bucket" (demo_key "L3");
    s3_event_for "raw-bucket" demo_key_no_marker;
    demo_raw "L1"; demo_raw "L2"; demo_raw_null_data;
    demo_owner; demo_secret_bad; demo_secret_good ].

Definition demo_json_loads (text : string) : Res json :=
  match find (λ d, String.eqb (show_json true d) text
                   || String.eqb (show_json false d) text) demo_documents with
  | Some d => Ok d
  | None => Raise (plain_exc "JSONDecodeError" "Expecting value")
  end.

(** [urllib.parse._splittype]: the scheme is the non-empty text before the
    first colon, provided no slash comes before it. *)
Fixpoint url_scheme (seen : bool) (url : string) : bool :=
  match url with
  | EmptyString => false
  | String c url' =>
      if Ascii.eqb c ":" then seen
      else if Ascii.eqb c "/" then false
      else url_scheme true url'
  end.

(** [urllib.request.Request(url)] refuses a text without a scheme. *)
Definition demo_Request (url : json) : Res string :=
  match url with
  | JStr u =>
      if url_scheme false u then Ok u
      else Raise (plain_exc "ValueError" ("unknown url type: '" +:+ u +:+ "'"))
  | _ => Raise (plain_exc "ValueError" "unknown url type")
  end.

(** The owner directory knows L2 and answers 404 for L1; any other
    request fails to connect. *)
Definition demo_urlopen_get (h : list Effect) (url : string) : Res string :=
  if String.eqb url "https://owners.example/L1.json"
  then Raise (http_error 404 "HTTP Error 404: Not Found")
  else if String.eqb url "https://owners.example/L2.json"
  then Ok (show_json true demo_owner)
  else Raise (url_error "<urlopen error timed out>").

Definition demo_get_secret_value (h : list Effect) (name : string) : Res json :=
  if String.eqb name "slack/bad-url"
  then Ok (JDict {[ "SecretString" := JStr (show_json true demo_secret_bad) ]})
  else if String.eqb name "slack/webhook"
  then Ok (JDict {[ "SecretString" := JStr (show_json true demo_secret_good) ]})
  else Raise (plain_exc "ClientError" "ResourceNotFoundException").

Definition demo_world : World := {|
  json_loads := demo_json_loads;
  json_dumps := show_json;
  unquote_plus := id;
  py_repr := show_json false;
  now_iso := λ h, "2024-03-02T00:00:00+00:00";
  urlopen_get := demo_urlopen_get;
  get_secret_value := demo_get_secret_value;
  Request := demo_Request;
  urlopen_post := λ h url data, Ok (200, "ok");
  error_body := λ e, Ok EmptyString;
  put_object := λ h bucket key body, Ok tt;
|}.

Definition demo_cfg (skip : bool) (secret : option string) : Config := {|
  SKIP_OWNER_LOOKUP := skip;
  OWNER_BASE := "https://owners.example";
  CURATED_BUCKET := "curated-bucket";
  ERROR_BUCKET := "error-bucket";
  SLACK_SECRET_NAME := secret;
|}.

(** The raw bucket holds the objects of L1, L2 and L3 and one object under
    the key without marker. *)
Definition demo_state : State := {|
  s3_objects := list_to_map
    [(("raw-bucket", demo_key "L1"), show_json true (demo_raw "L1"));
     (("raw-bucket", demo_key "L2"), show_json true (demo_raw "L2"));
     (("raw-bucket", demo_key "L3"), show_json true demo_raw_null_data);
     (("raw-bucket", demo_key_no_marker), show_json true (demo_raw "42"))];
  trace := [];
|}.

(** A delivery with one queue record for each of the given keys. *)
Definition demo_event (keys : list string) : json :=
  JDict {[ "Records" := JList ((λ k, sqs_record (s3_event_for "raw-bucket" k)) <$> keys) ]}.

Definition run_demo (skip : bool) (secret : option string) (keys : list string)
    : Res json * State :=
  lambda_handler demo_world (demo_cfg skip secret) (demo_event keys) demo_state.

(** ** Predicates used in the statements *)

(** The payload of the error artifact. *)
Definition error_payload (lead_id reason now detail : string) : gmap string json :=
  {[ "detail" := JStr detail ]}
  ∪ list_to_map [("lead_id", JStr lead_id); ("reason", JStr reason); ("at", JStr now)].

(** The curated artifact, from the data block of the raw object, the owner
    record, the identifier, the lookup status and the time stamp. *)
Definition enriched_of (data owner : gmap string json) (lead_id status now : string)
    : gmap string json :=
  list_to_map
    [("lead_id", JStr lead_id);
     ("display_name", from_option id JNull (data !! "display_name"));
     ("status_label", from_option id JNull (data !! "status_label"));
     ("date_created", from_option id JNull (data !! "date_created"));
     ("lead_email", from_option id JNull (owner !! "lead_email"));
     ("lead_owner", from_option id JNull (owner !! "lead_owner"));
     ("funnel", from_option id JNull (owner !! "funnel"));
     ("assignee", from_option id JNull (owner !! "lead_owner"));
     ("enriched_at", JStr now);
     ("owner_lookup_status", JStr status)].

(** A failure to connect (name resolution, connection refused, a timeout
    while connecting): [urlopen] wraps it in a URLError, which is no HTTP
    response. *)
Definition connect_failure (err : PyExc) : bool :=
  isinstance_URLError err && negb (isinstance_HTTPError err).

(** A timeout while the answer is awaited or read: the TimeoutError of the
    socket, which [urlopen] lets through as it is. *)
Definition read_timeout (err : PyExc) : bool :=
  String.eqb (exc_type err) "TimeoutError" && negb (isinstance_URLError err).

(** The connection-level failures of the specification: timeout, DNS,
    connection refused. *)
Definition connection_failure (err : PyExc) : bool :=
  connect_failure err || read_timeout err.

(** The store after the writes of a piece of trace. *)
Definition replay (W : World) (new : list Effect) (s : gmap (string * string) string)
    : gmap (string * string) string :=
  foldr (λ ev s, match ev with
                 | EPutObject b k p => <[(b, k) := json_dumps W true p]> s
                 | _ => s
                 end) s new.

(** [spec W m Q P R]: from any state, [m] extends the trace by effects that
    all satisfy [Q], changes the store by the writes among them only, and
    ends with a value in [P] or an exception in [R]. *)
Definition spec {A} (W : World) (m : M A)
    (Q : Effect → Prop) (P : A → Prop) (R : PyExc → Prop) : Prop :=
  ∀ st, ∃ new,
    trace (snd (m st)) = (new ++ trace st)%list
    ∧ s3_objects (snd (m st)) = replay W new (s3_objects st)
    ∧ Forall Q new
    ∧ match fst (m st) with Ok a => P a | Raise e => R e end.

Definition is_put (ev : Effect) : bool :=
  match ev with EPutObject _ _ _ => true | _ => false end.

Definition is_http_get (ev : Effect) : bool :=
  match ev with EHttpGet _ => true | _ => false end.

(** The effects of the notification step. *)
Definition is_notification (ev : Effect) : Prop :=
  match ev with
  | EGetSecret _ | EHttpPost _ _ | EPrint _ => True
  | _ => False
  end.

(** With the lookup switched off: no lookup request, and a curated
    artifact has a null owner and the status "skipped". *)
Definition skip_ok (ev : Effect) : Prop :=
  match ev with
  | EHttpGet _ => False
  | EPutObject _ key payload =>
      is_curated_key key = true →
      field "lead_owner" payload = JNull
      ∧ field "owner_lookup_status" payload = JStr "skipped"
  | _ => True
  end.

(** The trivial postcondition, and the one no exception satisfies. *)
Definition anything {A} : A → Prop := λ _, True.
Definition nothing : PyExc → Prop := λ _, False.

(** ** The effects the enrichment handler may perform *)

(** The values of [owner_lookup_status]. *)
Definition lookup_statuses : list string := ["ok"; "skipped"; "permanent_failed"].

(** A notification secret is configured. *)
Definition notifications_on (cfg : Config) : Prop :=
  ∃ name, SLACK_SECRET_NAME cfg = Some name ∧ name ≠ EmptyString.

(** [owner_url] of the handler *)
Definition owner_url (cfg : Config) (lead_id : string) : string :=
  OWNER_BASE cfg +:+ "/" +:+ lead_id +:+ ".json".

(** An answer of the owner directory for the lead: the decoded text of a
    response to the request for its URL. *)
Definition owner_answer (W : World) (cfg : Config) (lead_id : string) (owner : json) : Prop :=
  ∃ h text,
    urlopen_get W h (owner_url cfg lead_id) = Ok text ∧ json_loads W text = Ok owner.

(** A curated artifact holds an assignee and a lead owner, and both are the
    [lead_owner] entry (null when absent) of one owner record: an answer of
    the directory for the lead of the artifact when the status is "ok", the
    empty record when it is "skipped" or "permanent_failed". *)
Definition curated_ok (W : World) (cfg : Config) (ev : Effect) : Prop :=
  match ev with
  | EPutObject _ key payload =>
      is_curated_key key = true →
      ∃ (artifact owner : gmap string json) (lead_id status : string),
        payload = JDict artifact
        ∧ artifact !! "lead_id" = Some (JStr lead_id)
        ∧ artifact !! "owner_lookup_status" = Some (JStr status)
        ∧ artifact !! "lead_owner" = Some (from_option id JNull (owner !! "lead_owner"))
        ∧ artifact !! "assignee" = Some (from_option id JNull (owner !! "lead_owner"))
        ∧ status ∈ lookup_statuses
        ∧ (status = "ok" → owner_answer W cfg lead_id (JDict owner))
        ∧ (status ≠ "ok" → owner = ∅)
  | _ => True
  end.

(** The write of [payload] under [key] of [bucket] is done whenever it is
    attempted: its text holds no surrogate and the object store accepts
    it. *)
Definition write_accepted (W : World) (bucket key : string) (payload : json) : Prop :=
  has_surrogate (json_dumps W true payload) = false
  ∧ ∀ h, put_object W h bucket key (json_dumps W true payload) = Ok tt.

(** What an effect of the handler looks like: reads under the raw prefix;
    writes of a curated artifact at a curated key of the curated bucket or
    of an error artifact at an error key of the error bucket; requests to the
    owner URL of a lead, and sleeps, when the lookup is on; secret reads,
    posts and prints when a notification secret is configured. *)
Definition handler_effect (cfg : Config) (ev : Effect) : Prop :=
  match ev with
  | EGetObject _ key => String.prefix (RAW_PREFIX +:+ "/") key = true
  | EPutObject bucket key payload =>
      (∃ day lead_id data owner status now,
         bucket = CURATED_BUCKET cfg
         ∧ key = curated_key day lead_id
         ∧ payload = JDict (enriched_of data owner lead_id status now)
         ∧ status ∈ lookup_statuses
         ∧ (status ≠ "ok" → owner = ∅))
      ∨ (∃ day lead_id kind now detail,
           bucket = ERROR_BUCKET cfg
           ∧ key = error_key day lead_id
           ∧ payload = JDict (error_payload lead_id ("permanent:" +:+ kind) now detail))
  | EHttpGet url =>
      SKIP_OWNER_LOOKUP cfg = false ∧ ∃ lead_id, url = owner_url cfg lead_id
  | ESleep => SKIP_OWNER_LOOKUP cfg = false
  | ENow => True
  | EGetSecret _ | EHttpPost _ _ | EPrint _ => notifications_on cfg
  end.

(** The number of sleeps of a trace. *)
Definition sleeps (tr : list Effect) : nat :=
  length (omap (λ ev, match ev with ESleep => Some tt | _ => None end) tr).

(** The lookup answers the same at every request: it is switched off, or
    the directory returns the text of the owner record [owner] each time. *)
Definition steady_lookup (W : World) (cfg : Config) (lead_id : string)
    (owner : gmap string json) (status : string) : Prop :=
  (SKIP_OWNER_LOOKUP cfg = true ∧ owner = ∅ ∧ status = "skipped")
  ∨ (SKIP_OWNER_LOOKUP cfg = false ∧ status = "ok"
     ∧ ∃ text, (∀ h, urlopen_get W h (owner_url cfg lead_id) = Ok text)
               ∧ json_loads W text = Ok (JDict owner)).

(** ** The ingestion handler *)

(** [src/ingest/webhook_handler.py]: the webhook handler that stores the
    raw objects the enrichment handler reads. *)
Module Ingest.

(** The environment variables and the local calendar date,
    [datetime.date.today().isoformat()]. *)
Record Config : Type := mkConfig {
  RAW_BUCKET : string;
  RAW_PREFIX : string;
  today_iso : list Effect → string;
}.

Section Handler.

Context (W : World) (cfg : Config).

(** [datetime.datetime.utcnow().replace(tzinfo=...).isoformat()] *)
Definition _iso_now : M string :=
  h ← history;
  emit ENow;;
  mret (now_iso W h).

(** The API Gateway response [{"statusCode": code, "body": json.dumps(body)}] *)
Definition response (code : Z) (body : json) : json :=
  JDict (list_to_map [("statusCode", JInt code); ("body", JStr (json_dumps W false body))]).

(** The "defensive extraction" of the identifier:
    [event.lead_id or lead_id or event.object_id]. *)
Definition lead_id_of (body : json) : Res json :=
  ev ← py_get body "event" (JDict ∅);
  a ← py_get ev "lead_id" JNull;
  if py_truthy a then Ok a
  else
    b ← py_get body "lead_id" JNull;
    if py_truthy b then Ok b
    else
      ev' ← py_get body "event" (JDict ∅);
      py_get ev' "object_id" JNull.

(** [{**body, ...}]: only a mapping can be spread. *)
Definition spread (body : json) : Res (gmap string json) :=
  match body with
  | JDict b => Ok b
  | _ => Raise (TypeError ("'" +:+ py_type_name body +:+ "' object is not a mapping"))
  end.

(** [v[:10]]; a dictionary cannot be sliced either. *)
Definition slice10 (v : json) : Res json :=
  match v with
  | JStr s => Ok (JStr (str_take 10 s))
  | JList l => Ok (JList (take 10 l))
  | JDict _ => Raise (TypeError "unhashable type: 'slice'")
  | _ => Raise (TypeError ("'" +:+ py_type_name v +:+ "' object is not subscriptable"))
  end.

(** The envelope stored for a webhook body. *)
Definition envelope_of (body : gmap string json) (now : string) : gmap string json :=
  <["enrichment_status" := JStr "pending"]>
    (<["assignee" := JNull]> (<["ingested_at" := JStr now]> body)).

(** The key of the raw object *)
Definition object_key (day lead_id : json) : string :=
  RAW_PREFIX cfg +:+ "/dt=" +:+ py_format W day +:+ "/lead_id=" +:+ py_format W lead_id
    +:+ "/crm_event_" +:+ py_format W lead_id +:+ ".json".

Definition lambda_handler (event : json) : M json :=
  parsed ← try_except
              (b ← lift (py_get event "body" JNull);
               v ← lift (loads W (py_or b (JStr "{}")));
               mret (Some v))
              (λ _, mret None);
  match parsed with
  | None => mret (response 400 (JDict {[ "error" := JStr "invalid JSON body" ]}))
  | Some body =>
      lead_id ← lift (lead_id_of body);
      if negb (py_truthy lead_id)
      then mret (response 400 (JDict {[ "error" := JStr "missing lead_id" ]}))
      else
        b ← lift (spread body);
        now ← _iso_now;
        let envelope := envelope_of b now in
        day ← lift (ev ← py_get (JDict envelope) "event" (JDict ∅);
                    d ← py_get ev "date_created" (JStr EmptyString);
                    slice10 d);
        h ← history;
        let day := if py_truthy day then day else JStr (today_iso cfg h) in
        _write_json_to_s3 W (RAW_BUCKET cfg) (object_key day lead_id) (JDict envelope);;
        mret (response 200
                (JDict (list_to_map [("ok", JBool true); ("lead_id", lead_id)])))
  end.

End Handler.

End Ingest.

(** ** Helpers of the further statements *)

(** The text after the first [sep] of [s], when there is one. *)
Fixpoint str_after (sep : ascii) (s : string) : option string :=
  match s with
  | EmptyString => None
  | String c s' => if Ascii.eqb c sep then Some s' else str_after sep s'
  end.

(** An outcome after which [fetch_owner_json] sleeps and tries again: an
    exception that is not classified permanent. *)
Definition retryable {A} (r : Res A) : bool :=
  match r with
  | Ok _ => false
  | Raise e => negb (String.eqb (classify_lookup_error e) "permanent")
  end.

(** The state before the request that follows [k] failed attempts. *)
Definition after_retries (url : string) (k : nat) (st : State) : State :=
  mkState (s3_objects st) (retry_trace url k (trace st)).

(** A write under the curated prefix goes to the curated bucket, at the
    curated key of some (day, lead_id); the artifact names that lead, its
    status is one of the three, and unless the status is "ok" its owner
    fields are null. *)
Definition curated_wellformed (cfg : Config) (ev : Effect) : Prop :=
  match ev with
  | EPutObject bucket key payload =>
      is_curated_key key = true →
      bucket = CURATED_BUCKET cfg
      ∧ ∃ day lead_id status,
          key = curated_key day lead_id
          ∧ field "lead_id" payload = JStr lead_id
          ∧ field "owner_lookup_status" payload = JStr status
          ∧ status ∈ lookup_statuses
          ∧ (status ≠ "ok" →
             field "lead_owner" payload = JNull
             ∧ field "lead_email" payload = JNull
             ∧ field "funnel" payload = JNull)
  | _ => True
  end.

(** A write outside the curated prefix is an error artifact: it goes to
    the error bucket, at the error key of some (day, lead_id), names that
    lead and has a reason that starts with "permanent:". *)
Definition error_wellformed (cfg : Config) (ev : Effect) : Prop :=
  match ev with
  | EPutObject bucket key payload =>
      is_curated_key key = false →
      bucket = ERROR_BUCKET cfg
      ∧ ∃ day lead_id kind,
          key = error_key day lead_id
          ∧ field "lead_id" payload = JStr lead_id
          ∧ field "reason" payload = JStr ("permanent:" +:+ kind)
  | _ => True
  end.

(** Reads are under the raw prefix; lookup requests go to the owner URL of
    some lead, and there is none, nor any sleep, when the lookup is off. *)
Definition io_in_scope (cfg : Config) (ev : Effect) : Prop :=
  match ev with
  | EGetObject _ key => String.prefix (RAW_PREFIX +:+ "/") key = true
  | EHttpGet url =>
      SKIP_OWNER_LOOKUP cfg = false ∧ ∃ lead_id, url = owner_url cfg lead_id
  | ESleep => SKIP_OWNER_LOOKUP cfg = false
  | _ => True
  end.

(** No effect of the notification step. *)
Definition silent (ev : Effect) : Prop :=
  match ev with
  | EGetSecret _ | EHttpPost _ _ | EPrint _ => False
  | _ => True
  end.

(** The configuration [cfg] with another notification secret. *)
Definition with_secret (cfg : Config) (secret : option string) : Config :=
  mkConfig (SKIP_OWNER_LOOKUP cfg) (OWNER_BASE cfg) (CURATED_BUCKET cfg) (ERROR_BUCKET cfg)
    secret.

(** The fan-out envelope of the object-store event for lead L2, and the
    world of the examples with a decoder that knows it. *)
Definition demo_envelope : json :=
  JDict {[ "Message" := JStr (show_json true (s3_event_for "raw-bucket" (demo_key "L2"))) ]}.

Definition demo_world_fanout : World :=
  mkWorld
    (λ text, if String.eqb text (show_json true demo_envelope)
             then Ok demo_envelope else demo_json_loads text)
    show_json id (show_json false) (now_iso demo_world)
    demo_urlopen_get demo_get_secret_value demo_Request (urlopen_post demo_world)
    (error_body demo_world) (put_object demo_world).

(** A webhook call of the examples: lead L8, created on 2024-03-05. *)
Definition demo_webhook_body : json :=
  JDict (list_to_map
    [("event", JDict (list_to_map
        [("lead_id", JStr "L8");
         ("date_created", JStr "2024-03-05T09:30:00+00:00");
         ("data", JDict (list_to_map
            [("display_name", JStr "John Roe");
             ("status_label", JStr "Potential")]))]))]).

Definition demo_webhook_envelope : json :=
  JDict (list_to_map
    [("event", JDict (list_to_map
        [("lead_id", JStr "L8");
         ("date_created", JStr "2024-03-05T09:30:00+00:00");
         ("data", JDict (list_to_map
            [("display_name", JStr "John Roe");
             ("status_label", JStr "Potential")]))]));
     ("ingested_at", JStr "2024-03-02T00:00:00+00:00");
     ("assignee", JNull);
     ("enrichment_status", JStr "pending")]).

Definition demo_webhook_event : json :=
  JDict {[ "body" := JStr (show_json true demo_webhook_body) ]}.

(** The world of the examples with a decoder that also knows the webhook
    body and its envelope. *)
Definition demo_world_ingest : World :=
  mkWorld
    (λ text, if String.eqb text (show_json true demo_webhook_body)
             then Ok demo_webhook_body
             else if String.eqb text (show_json true demo_webhook_envelope)
             then Ok demo_webhook_envelope
             else demo_json_loads text)
    show_json id (show_json false) (now_iso demo_world)
    demo_urlopen_get demo_get_secret_value demo_Request (urlopen_post demo_world)
    (error_body demo_world) (put_object demo_world).

(** The surrogate [U+D800], and a directory whose record for every lead
    names an owner with that character: the text of the answer is the JSON
    escape, which [json.loads] decodes. *)
Definition demo_surrogate : string :=
  String (ascii_of_nat 237) (String (ascii_of_nat 160) (String (ascii_of_nat 128) EmptyString)).

Definition demo_owner_surrogate : json :=
  JDict {[ "lead_owner" := JStr ("al" +:+ demo_surrogate) ]}.

Definition demo_owner_surrogate_text : string :=
  "{" +:+ dq +:+ "lead_owner" +:+ dq +:+ ":" +:+ dq +:+ "al\ud800" +:+ dq +:+ "}".

Definition demo_world_surrogate : World :=
  mkWorld
    (λ text, if String.eqb text demo_owner_surrogate_text
             then Ok demo_owner_surrogate else demo_json_loads text)
    show_json id (show_json false) (now_iso demo_world)
    (λ _ _, Ok demo_owner_surrogate_text)
    demo_get_secret_value demo_Request (urlopen_post demo_world)
    (error_body demo_world) (put_object demo_world).

Definition demo_ingest_cfg : Ingest.Config :=
  Ingest.mkConfig "raw-bucket" "crm/lead_created" (λ _, "2024-03-07").

(** * Properties *)

(** ** Key parsing *)

Example parse_key_ex1 :
  parse_key "crm/lead_created/dt=2024-03-01/lead_id=42/crm_event_42.json"
  = Ok (Some ("2024-03-01", "42")).
Proof. reflexivity. Qed.

Example parse_key_other_prefix : parse_key "other/prefix/file.json" = Ok None.
Proof. reflexivity. Qed.

Example parse_key_short : parse_key "crm/lead_created/a.json" = Ok None.
Proof. reflexivity. Qed.

(** A wrong marker name is not noticed: only the text after the first
    [=] counts. *)
Example parse_key_wrong_marker :
  parse_key "crm/lead_created/day=2024-03-01/id=42/crm_event_42.json"
  = Ok (Some ("2024-03-01", "42")).
Proof. reflexivity. Qed.

Lemma str_has_app c a b : str_has c (a +:+ b) = str_has c a || str_has c b.
Proof.
  induction a as [|x a IH]; simpl; [done|].
  by rewrite IH, orb_assoc.
Qed.

Lemma str_split_nosep sep s :
  str_has sep s = false → str_split sep None s = [s].
Proof.
  induction s as [|c s IH]; simpl; [done|].
  intros [Hc Hs]%orb_false_iff. rewrite Hc. by rewrite (IH Hs).
Qed.

Lemma str_split_app sep a b :
  str_has sep a = false →
  str_split sep None (a +:+ String sep b) = a :: str_split sep None b.
Proof.
  induction a as [|c a IH]; simpl.
  - intros _. by rewrite Ascii.eqb_refl.
  - intros [Hc Ha]%orb_false_iff. rewrite Hc. by rewrite (IH Ha).
Qed.

Lemma str_split_zero sep s : str_split sep (Some 0%nat) s = [s].
Proof. by destruct s. Qed.

Lemma str_split_once sep a b :
  str_has sep a = false →
  str_split sep (Some 1%nat) (a +:+ String sep b) = [a; b].
Proof.
  induction a as [|c a IH]; simpl.
  - intros _. by rewrite Ascii.eqb_refl, str_split_zero.
  - intros [Hc Ha]%orb_false_iff. rewrite Hc. by rewrite (IH Ha).
Qed.

Lemma raw_key_parts day lead_id :
  str_has "/" day = false → str_has "/" lead_id = false →
  str_split "/" None (raw_key day lead_id)
  = ["crm"; "lead_created"; "dt=" +:+ day; "lead_id=" +:+ lead_id;
     "crm_event_" +:+ lead_id +:+ ".json"].
Proof.
  intros Hd Hi.
  change (raw_key day lead_id) with
    ("crm" +:+ String "/" ("lead_created" +:+ String "/" (("dt=" +:+ day) +:+ String "/"
       (("lead_id=" +:+ lead_id) +:+ String "/" ("crm_event_" +:+ lead_id +:+ ".json"))))).
  rewrite !str_split_app, str_split_nosep; first done.
  all: rewrite ?str_has_app, ?Hd, ?Hi; done.
Qed.

(** C7. For every raw key [crm/lead_created/dt=<day>/lead_id=<ID>/crm_event_<ID>.json]
    whose day and identifier hold no slash, parsing gives back exactly
    (day, ID), and the curated and error keys derived from the parsed pair
    are, character for character,
    [crm/lead_enriched/dt=<day>/lead_id=<ID>/lead_<ID>.json] and
    [crm/errors/dt=<day>/lead_id=<ID>/owner_lookup_failed.json]. *)
Theorem key_roundtrip (day lead_id : string) :
  str_has "/" day = false →
  str_has "/" lead_id = false →
  ∃ d i,
    parse_key ("crm/lead_created/dt=" +:+ day +:+ "/lead_id=" +:+ lead_id
               +:+ "/crm_event_" +:+ lead_id +:+ ".json") = Ok (Some (d, i))
    ∧ d = day ∧ i = lead_id
    ∧ curated_key d i
      = "crm/lead_enriched/dt=" +:+ day +:+ "/lead_id=" +:+ lead_id
        +:+ "/lead_" +:+ lead_id +:+ ".json"
    ∧ error_key d i
      = "crm/errors/dt=" +:+ day +:+ "/lead_id=" +:+ lead_id
        +:+ "/owner_lookup_failed.json".
Proof.
  intros Hd Hi. exists day, lead_id.
  split; [|by repeat split].
  change ("crm/lead_created/dt=" +:+ day +:+ "/lead_id=" +:+ lead_id
          +:+ "/crm_event_" +:+ lead_id +:+ ".json") with (raw_key day lead_id).
  unfold parse_key.
  replace (String.prefix (RAW_PREFIX +:+ "/") (raw_key day lead_id)) with true
    by reflexivity.
  rewrite (raw_key_parts _ _ Hd Hi).
  rewrite !bool_decide_eq_true_2 by done.
  cbn.
  change ("dt=" +:+ day) with ("dt" +:+ String "=" day).
  change ("lead_id=" +:+ lead_id) with ("lead_id" +:+ String "=" lead_id).
  by rewrite !str_split_once.
Qed.

Lemma key_roundtrip_witness :
  ∃ d i,
    parse_key "crm/lead_created/dt=2024-03-01/lead_id=L1/crm_event_L1.json"
      = Ok (Some (d, i))
    ∧ d = "2024-03-01" ∧ i = "L1"
    ∧ curated_key d i = "crm/lead_enriched/dt=2024-03-01/lead_id=L1/lead_L1.json"
    ∧ error_key d i = "crm/errors/dt=2024-03-01/lead_id=L1/owner_lookup_failed.json".
Proof. apply (key_roundtrip "2024-03-01" "L1"); reflexivity. Defined.

(** C3. A key with the raw prefix and five segments whose day segment has
    no [=] is not skipped: the index into the split segment raises
    IndexError, and the exception leaves the handler. *)
Theorem malformed_segment_raises :
  parse_key demo_key_no_marker = Raise (plain_exc "IndexError" "list index out of range")
  ∧ fst (run_demo false None [demo_key_no_marker])
    = Raise (plain_exc "IndexError" "list index out of range")
  ∧ trace (snd (run_demo false None [demo_key_no_marker])) = [].
Proof. repeat split; vm_compute; reflexivity. Qed.

(** ** Error classification *)

(** C4 (as the code has it). The classification is one of the three
    labels; it is permanent for an HTTP error with a 4xx code, transient for
    an HTTP error with a 5xx code and for a failure to connect (a URLError
    that is no HTTP response), and unknown for every exception that is no
    URLError: an unrecognized one, but also the TimeoutError of an answer
    that times out while it is awaited or read. *)
Theorem classify_lookup_error_cases (err : PyExc) :
  classify_lookup_error err ∈ ["permanent"; "transient"; "unknown"]
  ∧ (isinstance_HTTPError err = true → 400 ≤ exc_code err < 500 →
     classify_lookup_error err = "permanent")
  ∧ (isinstance_HTTPError err = true → 500 ≤ exc_code err < 600 →
     classify_lookup_error err = "transient")
  ∧ (connect_failure err = true → classify_lookup_error err = "transient")
  ∧ (read_timeout err = true → classify_lookup_error err = "unknown")
  ∧ (isinstance_URLError err = false → classify_lookup_error err = "unknown").
Proof.
  unfold classify_lookup_error, connect_failure, read_timeout, isinstance_HTTPError,
    isinstance_URLError, exc_code.
  destruct (exc_kind err) as [code| |]; simpl.
  - destruct (Z.leb_spec 400 code), (Z.ltb_spec code 500),
      (Z.leb_spec 500 code), (Z.ltb_spec code 600); simpl;
      repeat split; intros; try lia; try done;
      try (by rewrite andb_false_r in *); set_solver.
  - repeat split; intros; try done; try (by rewrite andb_false_r in *); set_solver.
  - repeat split; intros; try done; set_solver.
Qed.

Lemma classify_lookup_error_witness :
  classify_lookup_error (http_error 404 "Not Found") = "permanent"
  ∧ classify_lookup_error (http_error 403 "Forbidden") = "permanent"
  ∧ classify_lookup_error (http_error 500 "Internal Server Error") = "transient"
  ∧ classify_lookup_error (url_error "<urlopen error [Errno 111] Connection refused>")
    = "transient"
  ∧ classify_lookup_error (plain_exc "TimeoutError" "timed out") = "unknown"
  ∧ classify_lookup_error (plain_exc "ValueError" "bad") = "unknown".
Proof.
  split; [|split; [|split; [|split; [|split]]]].
  - apply (proj1 (proj2 (classify_lookup_error_cases (http_error 404 "Not Found"))));
      [reflexivity | cbv [exc_code http_error exc_kind]; lia].
  - apply (proj1 (proj2 (classify_lookup_error_cases (http_error 403 "Forbidden"))));
      [reflexivity | cbv [exc_code http_error exc_kind]; lia].
  - apply (proj1 (proj2 (proj2
      (classify_lookup_error_cases (http_error 500 "Internal Server Error")))));
      [reflexivity | cbv [exc_code http_error exc_kind]; lia].
  - apply (proj1 (proj2 (proj2 (proj2
      (classify_lookup_error_cases
         (url_error "<urlopen error [Errno 111] Connection refused>"))))));
      reflexivity.
  - apply (proj1 (proj2 (proj2 (proj2 (proj2
      (classify_lookup_error_cases (plain_exc "TimeoutError" "timed out")))))));
      reflexivity.
  - apply (proj2 (proj2 (proj2 (proj2 (proj2
      (classify_lookup_error_cases (plain_exc "ValueError" "bad")))))));
      reflexivity.
Defined.

(** C4, counterexample. The answer of the directory times out while it is
    read: [urlopen] raises the TimeoutError of the socket as it is, not
    wrapped in a URLError.  It is a connection-level failure, a timeout, and
    it is classified unknown, not transient. *)
Lemma read_timeout_classified_unknown :
  connection_failure (plain_exc "TimeoutError" "timed out") = true
  ∧ isinstance_URLError (plain_exc "TimeoutError" "timed out") = false
  ∧ classify_lookup_error (plain_exc "TimeoutError" "timed out") = "unknown"
  ∧ classify_lookup_error (plain_exc "TimeoutError" "timed out") ≠ "transient".
Proof. repeat split; try reflexivity. discriminate. Qed.

(** An HTTP error whose code is neither 4xx nor 5xx is still a URLError,
    and so transient. *)
Lemma classify_http_other_code (err : PyExc) :
  isinstance_HTTPError err = true →
  ¬ (400 ≤ exc_code err < 600) →
  classify_lookup_error err = "transient".
Proof.
  unfold classify_lookup_error, isinstance_HTTPError, isinstance_URLError, exc_code.
  destruct (exc_kind err) as [code| |]; simpl; [|done..].
  intros _ Hc.
  destruct (Z.leb_spec 400 code), (Z.ltb_spec code 500),
    (Z.leb_spec 500 code), (Z.ltb_spec code 600); simpl; try done; lia.
Qed.

(** ** The monad *)

Lemma bind_Ok {A B} (m : M A) (k : A → M B) st a st' :
  m st = (Ok a, st') → (m ≫= k) st = k a st'.
Proof. intros H. unfold mbind, M_bind. by rewrite H. Qed.

Lemma bind_Raise {A B} (m : M A) (k : A → M B) st e st' :
  m st = (Raise e, st') → (m ≫= k) st = (Raise e, st').
Proof. intros H. unfold mbind, M_bind. by rewrite H. Qed.

Lemma try_except_Ok {A} (m : M A) h st a st' :
  m st = (Ok a, st') → try_except m h st = (Ok a, st').
Proof. intros H. unfold try_except. by rewrite H. Qed.

Lemma try_except_Raise {A} (m : M A) h st e st' :
  m st = (Raise e, st') → try_except m h st = h e st'.
Proof. intros H. unfold try_except. by rewrite H. Qed.

(** ** Writing an object *)

Lemma encode_utf8_Ok s : has_surrogate s = false → encode_utf8 s = Ok s.
Proof. intros H. unfold encode_utf8. by rewrite H. Qed.

(** The write whose text has no surrogate and which the store accepts. *)
Lemma write_json_Ok W bucket key payload st :
  has_surrogate (json_dumps W true payload) = false →
  put_object W (trace st) bucket key (json_dumps W true payload) = Ok tt →
  _write_json_to_s3 W bucket key payload st
  = (Ok tt, mkState (<[(bucket, key) := json_dumps W true payload]> (s3_objects st))
                    (EPutObject bucket key payload :: trace st)).
Proof.
  intros Henc Hput.
  unfold _write_json_to_s3, history, lift, store_put, mbind, M_bind.
  by rewrite (encode_utf8_Ok _ Henc), Hput.
Qed.

(** A write is done, as above, or raises and leaves the state as it was:
    there is no partial write. *)
Lemma write_json_cases W bucket key payload st :
  (has_surrogate (json_dumps W true payload) = false
   ∧ put_object W (trace st) bucket key (json_dumps W true payload) = Ok tt
   ∧ _write_json_to_s3 W bucket key payload st
     = (Ok tt, mkState (<[(bucket, key) := json_dumps W true payload]> (s3_objects st))
                       (EPutObject bucket key payload :: trace st)))
  ∨ (∃ e, _write_json_to_s3 W bucket key payload st = (Raise e, st)
          ∧ (has_surrogate (json_dumps W true payload) = true
             ∨ put_object W (trace st) bucket key (json_dumps W true payload) = Raise e)).
Proof.
  unfold _write_json_to_s3, encode_utf8, history, lift, store_put, mbind, M_bind.
  destruct (has_surrogate (json_dumps W true payload)) eqn:Henc.
  { right. eexists. split; [reflexivity | by left]. }
  destruct (put_object W (trace st) bucket key (json_dumps W true payload)) as [[]|e] eqn:Hput.
  - left. by repeat split.
  - right. exists e. split; [reflexivity | by right].
Qed.

(** ** The retrying lookup client *)

Lemma retry_trace_shift url n tr :
  retry_trace url n (ESleep :: EHttpGet url :: tr) = retry_trace url (S n) tr.
Proof. induction n as [|n IH]; simpl; [done|]. by rewrite IH. Qed.

Section Fetch.

Context (W : World) (url : string).

(** One request adds one [EHttpGet] to the trace, whatever its outcome. *)
Lemma owner_request_state st :
  snd (owner_request W url st) = mkState (s3_objects st) (EHttpGet url :: trace st).
Proof.
  unfold owner_request, history, emit, lift, mbind, M_bind. simpl.
  by destruct (urlopen_get W (trace st) url).
Qed.

Lemma owner_request_Raise st e :
  fst (owner_request W url st) = Raise e →
  owner_request W url st = (Raise e, mkState (s3_objects st) (EHttpGet url :: trace st)).
Proof.
  intros H. rewrite <- owner_request_state, <- H. by destruct (owner_request W url st).
Qed.

Lemma owner_request_Ok st v :
  fst (owner_request W url st) = Ok v →
  owner_request W url st = (Ok v, mkState (s3_objects st) (EHttpGet url :: trace st)).
Proof.
  intros H. rewrite <- owner_request_state, <- H. by destruct (owner_request W url st).
Qed.

(** A permanent failure at the first attempt of the loop ends it there. *)
Lemma fetch_owner_loop_permanent n last st e :
  fst (owner_request W url st) = Raise e →
  classify_lookup_error e = "permanent" →
  fetch_owner_loop W url (S n) last st
  = (Raise e, mkState (s3_objects st) (EHttpGet url :: trace st)).
Proof.
  intros He Hc. simpl.
  rewrite (try_except_Raise _ _ _ _ _ (owner_request_Raise _ _ He)).
  by rewrite Hc.
Qed.

(** A success at the first attempt of the loop returns its value. *)
Lemma fetch_owner_loop_Ok n last st v :
  fst (owner_request W url st) = Ok v →
  fetch_owner_loop W url (S n) last st
  = (Ok v, mkState (s3_objects st) (EHttpGet url :: trace st)).
Proof.
  intros Hv. simpl. by rewrite (try_except_Ok _ _ _ _ _ (owner_request_Ok _ _ Hv)).
Qed.

(** A failure that is not permanent sleeps and goes on with the rest of the
    budget. *)
Lemma fetch_owner_loop_retry n last st e :
  fst (owner_request W url st) = Raise e →
  classify_lookup_error e ≠ "permanent" →
  fetch_owner_loop W url (S n) last st
  = fetch_owner_loop W url n (Some e)
      (mkState (s3_objects st) (ESleep :: EHttpGet url :: trace st)).
Proof.
  intros He Hc. simpl.
  rewrite (try_except_Raise _ _ _ _ _ (owner_request_Raise _ _ He)).
  apply String.eqb_neq in Hc. by rewrite Hc.
Qed.

Hypothesis always_fails : ∀ s, ∃ e,
  fst (owner_request W url s) = Raise e ∧ classify_lookup_error e ≠ "permanent".

(** With a service that fails on every request, a budget of [S n] attempts
    is used up: [S n] requests, each followed by a sleep, and the error of
    the last one is raised. *)
Lemma fetch_owner_loop_exhausts n : ∀ last st, ∃ e,
  fetch_owner_loop W url (S n) last st
  = (Raise e, mkState (s3_objects st) (retry_trace url (S n) (trace st)))
  ∧ fst (owner_request W url (mkState (s3_objects st) (retry_trace url n (trace st))))
    = Raise e.
Proof.
  induction n as [|n IH]; intros last st.
  - destruct (always_fails st) as (e & He & Hc). exists e.
    rewrite (fetch_owner_loop_retry _ _ _ _ He Hc). simpl.
    split; [done|]. by destruct st.
  - destruct (always_fails st) as (e1 & He1 & Hc1).
    rewrite (fetch_owner_loop_retry _ _ _ _ He1 Hc1).
    destruct (IH (Some e1) (mkState (s3_objects st) (ESleep :: EHttpGet url :: trace st)))
      as (e & Hrun & Hlast).
    exists e. rewrite Hrun. simpl s3_objects in *. simpl trace in *.
    by rewrite !retry_trace_shift in *.
Qed.

End Fetch.

Lemma http_gets_retry_trace url n tr :
  http_gets (retry_trace url n tr) = (replicate n url ++ http_gets tr)%list.
Proof. induction n as [|n IH]; simpl; [done|]. unfold http_gets in *. simpl. by rewrite IH. Qed.

(** C5. When every request fails with an error that is not classified
    permanent, [fetch_owner_json] makes exactly RETRY_TRANSIENT + 1
    requests and raises the error of the last one; when the first request
    fails with an error classified permanent, it raises that error after this
    single request, without sleeping. *)
Theorem fetch_owner_json_attempts (W : World) (url : string) (st : State) :
  ((∀ s, ∃ e, fst (owner_request W url s) = Raise e
              ∧ classify_lookup_error e ≠ "permanent") →
   ∃ e st',
     fetch_owner_json W url st = (Raise e, st')
     ∧ s3_objects st' = s3_objects st
     ∧ trace st' = retry_trace url (RETRY_TRANSIENT + 1) (trace st)
     ∧ http_gets (trace st')
       = (replicate (RETRY_TRANSIENT + 1) url ++ http_gets (trace st))%list
     ∧ fst (owner_request W url
              (mkState (s3_objects st) (retry_trace url RETRY_TRANSIENT (trace st))))
       = Raise e)
  ∧ (∀ e, fst (owner_request W url st) = Raise e →
          classify_lookup_error e = "permanent" →
          fetch_owner_json W url st
          = (Raise e, mkState (s3_objects st) (EHttpGet url :: trace st))).
Proof.
  split.
  - intros Hfail.
    destruct (fetch_owner_loop_exhausts W url Hfail RETRY_TRANSIENT None st)
      as (e & Hrun & Hlast).
    exists e, (mkState (s3_objects st) (retry_trace url (RETRY_TRANSIENT + 1) (trace st))).
    unfold fetch_owner_json.
    replace (RETRY_TRANSIENT + 1)%nat with (S RETRY_TRANSIENT) by reflexivity.
    rewrite Hrun. cbn [s3_objects trace].
    by rewrite http_gets_retry_trace.
  - intros e He Hc. by apply fetch_owner_loop_permanent.
Qed.

(** The directory of the examples never answers for L3 (every request
    times out) and answers 404 for L1. *)
Lemma fetch_owner_json_attempts_witness :
  (∃ e st',
     fetch_owner_json demo_world "https://owners.example/L3.json" demo_state = (Raise e, st')
     ∧ s3_objects st' = s3_objects demo_state
     ∧ trace st' = retry_trace "https://owners.example/L3.json" (RETRY_TRANSIENT + 1) []
     ∧ http_gets (trace st')
       = (replicate (RETRY_TRANSIENT + 1) "https://owners.example/L3.json" ++ [])%list
     ∧ fst (owner_request demo_world "https://owners.example/L3.json"
              (mkState (s3_objects demo_state)
                 (retry_trace "https://owners.example/L3.json" RETRY_TRANSIENT [])))
       = Raise e)
  ∧ fetch_owner_json demo_world "https://owners.example/L1.json" demo_state
    = (Raise (http_error 404 "HTTP Error 404: Not Found"),
       mkState (s3_objects demo_state) [EHttpGet "https://owners.example/L1.json"]).
Proof.
  split.
  - apply (fetch_owner_json_attempts demo_world "https://owners.example/L3.json" demo_state).
    intros s. exists (url_error "<urlopen error timed out>").
    split; [reflexivity | vm_compute; discriminate].
  - apply (fetch_owner_json_attempts demo_world "https://owners.example/L1.json" demo_state);
      reflexivity.
Defined.

(** ** The merge *)

Lemma raw_fields_get raw data :
  raw_fields raw = Some data →
  raw_data raw = Ok (JDict data).
Proof.
  unfold raw_data. destruct raw as [| | | | | |r]; simpl; try done.
  destruct (r !! "event") as [[| | | | | |ev]|]; simpl; try done.
  - destruct (ev !! "data") as [[| | | | | |d]|]; simpl; try done; by intros [= <-].
  - by intros [= <-].
Qed.

Lemma build_enriched_run W data owner lead_id status st :
  build_enriched W (JDict data) (JDict owner) lead_id status st
  = (Ok (JDict (enriched_of data owner lead_id status (now_iso W (trace st)))),
     mkState (s3_objects st) (ENow :: trace st)).
Proof. reflexivity. Qed.

(** Whatever the merge returns is of the form [enriched_of]. *)
Lemma build_enriched_inv W d owner_payload lead_id status st v :
  fst (build_enriched W d owner_payload lead_id status st) = Ok v →
  ∃ data owner now,
    owner_payload = JDict owner ∧ v = JDict (enriched_of data owner lead_id status now).
Proof.
  unfold build_enriched, lift, mbind, M_bind.
  destruct d as [| | | | | |data]; simpl; try done.
  destruct owner_payload as [| | | | | |owner]; simpl; try done.
  intros [= <-]. by eexists _, _, _.
Qed.

(** The merge emits one [ENow] at most and never touches the store. *)
Lemma build_enriched_state W d owner_payload lead_id status st :
  let st' := snd (build_enriched W d owner_payload lead_id status st) in
  s3_objects st' = s3_objects st ∧ (trace st' = trace st ∨ trace st' = ENow :: trace st).
Proof.
  unfold build_enriched, lift, mbind, M_bind.
  destruct d as [| | | | | |data]; simpl; try by (split; [|left]).
  destruct owner_payload as [| | | | | |owner]; simpl; try by (split; [|left]).
  by split; [|right].
Qed.

(** C6 (as the code has it). For every raw object that is a JSON object
    whose [event], when present, is an object and whose [event.data], when
    present, is an object, and for every owner record that is a JSON object
    (empty or not), reading the data block and building the curated artifact
    do not raise; each field absent from its source is the null marker. *)
Theorem build_enriched_total (W : World) (raw : json) (data owner : gmap string json)
    (lead_id status : string) (st : State) :
  raw_fields raw = Some data →
  raw_data raw = Ok (JDict data)
  ∧ ∃ enriched,
      build_enriched W (JDict data) (JDict owner) lead_id status st
      = (Ok (JDict enriched), mkState (s3_objects st) (ENow :: trace st))
      ∧ enriched !! "lead_id" = Some (JStr lead_id)
      ∧ enriched !! "display_name" = Some (from_option id JNull (data !! "display_name"))
      ∧ enriched !! "status_label" = Some (from_option id JNull (data !! "status_label"))
      ∧ enriched !! "date_created" = Some (from_option id JNull (data !! "date_created"))
      ∧ enriched !! "lead_email" = Some (from_option id JNull (owner !! "lead_email"))
      ∧ enriched !! "lead_owner" = Some (from_option id JNull (owner !! "lead_owner"))
      ∧ enriched !! "funnel" = Some (from_option id JNull (owner !! "funnel"))
      ∧ enriched !! "assignee" = Some (from_option id JNull (owner !! "lead_owner"))
      ∧ enriched !! "enriched_at" = Some (JStr (now_iso W (trace st)))
      ∧ enriched !! "owner_lookup_status" = Some (JStr status).
Proof.
  intros Hraw. split; [by apply raw_fields_get|].
  eexists. split; [by apply build_enriched_run|].
  repeat split; reflexivity.
Qed.

(** A raw object without any [event] block and an empty owner record. *)
Lemma build_enriched_total_witness :
  raw_data (JDict {[ "lead_id" := JStr "L7" ]}) = Ok (JDict ∅)
  ∧ ∃ enriched,
      build_enriched demo_world (JDict ∅) (JDict ∅) "L7" "skipped" demo_state
      = (Ok (JDict enriched), mkState (s3_objects demo_state) [ENow])
      ∧ enriched !! "lead_id" = Some (JStr "L7")
      ∧ enriched !! "display_name" = Some JNull
      ∧ enriched !! "status_label" = Some JNull
      ∧ enriched !! "date_created" = Some JNull
      ∧ enriched !! "lead_email" = Some JNull
      ∧ enriched !! "lead_owner" = Some JNull
      ∧ enriched !! "funnel" = Some JNull
      ∧ enriched !! "assignee" = Some JNull
      ∧ enriched !! "enriched_at" = Some (JStr "2024-03-02T00:00:00+00:00")
      ∧ enriched !! "owner_lookup_status" = Some (JStr "skipped").
Proof.
  assert (raw_fields (JDict {[ "lead_id" := JStr "L7" ]}) = Some ∅) as Hraw
    by reflexivity.
  destruct (build_enriched_total demo_world (JDict {[ "lead_id" := JStr "L7" ]}) ∅ ∅
              "L7" "skipped" demo_state Hraw) as (Hdata & enriched & Hrun & Hfields).
  split; [exact Hdata|].
  exists enriched. split; [exact Hrun|].
  rewrite !lookup_empty in Hfields. exact Hfields.
Defined.

(** C6, counterexample. The raw object of L3, which the ingestion handler
    stores for the webhook body [{"event": {"lead_id": "L3", "data": null}}]; its
    data block is [None], on which the merge raises AttributeError, and the
    handler, run with the lookup skipped, raises without writing a curated
    artifact.  A raw object whose [event] is null fails one line earlier. *)
Lemma build_enriched_null_data_raises :
  raw_data demo_raw_null_data = Ok JNull
  ∧ fst (build_enriched demo_world JNull (JDict ∅) "L3" "skipped" demo_state)
    = Raise (AttributeError JNull "get")
  ∧ fst (run_demo true None [demo_key "L3"]) = Raise (AttributeError JNull "get")
  ∧ s3_objects (snd (run_demo true None [demo_key "L3"]))
      !! ("curated-bucket", curated_key "2024-03-01" "L3") = None
  ∧ raw_data (JDict {[ "event" := JNull ]}) = Raise (AttributeError JNull "get").
Proof. repeat split; vm_compute; reflexivity. Qed.

(** ** Effects of a computation *)

Section Spec.

Context (W : World) (Q : Effect → Prop).

Lemma replay_app new2 new1 s :
  replay W (new2 ++ new1)%list s = replay W new2 (replay W new1 s).
Proof. unfold replay. by rewrite foldr_app. Qed.

Lemma spec_ret {A} (a : A) (P : A → Prop) R : P a → spec W (mret a) Q P R.
Proof. intros HP st. by exists []. Qed.

Lemma spec_raise {A} e (P : A → Prop) (R : PyExc → Prop) : R e → spec W (raise e) Q P R.
Proof. intros HR st. by exists []. Qed.

Lemma spec_lift {A} (r : Res A) (P : A → Prop) (R : PyExc → Prop) :
  match r with Ok a => P a | Raise e => R e end → spec W (lift r) Q P R.
Proof. intros H st. by exists []. Qed.

Lemma spec_history (P : list Effect → Prop) R : (∀ h, P h) → spec W history Q P R.
Proof. intros H st. exists []. repeat split; [constructor | apply H]. Qed.

Lemma spec_emit ev (P : unit → Prop) R :
  is_put ev = false → Q ev → P tt → spec W (emit ev) Q P R.
Proof.
  intros Hput HQ HP st. exists [ev]. simpl.
  repeat split; [by destruct ev | by constructor | done].
Qed.

Lemma spec_bind {A B} (m : M A) (k : A → M B) (P : A → Prop) (P' : B → Prop) R :
  spec W m Q P R → (∀ a, P a → spec W (k a) Q P' R) → spec W (m ≫= k) Q P' R.
Proof.
  intros Hm Hk st. destruct (Hm st) as (new1 & Ht1 & Hs1 & HQ1 & Hr1).
  unfold mbind, M_bind. destruct (m st) as [[a|e] st1]; simpl in *.
  - destruct (Hk a Hr1 st1) as (new2 & Ht2 & Hs2 & HQ2 & Hr2).
    exists (new2 ++ new1)%list. rewrite Ht2, Hs2, Ht1, Hs1, replay_app, app_assoc.
    repeat split; [by apply Forall_app | done].
  - by exists new1.
Qed.

Lemma spec_try {A} (m : M A) (h : PyExc → M A) (P : A → Prop) (R0 R : PyExc → Prop) :
  spec W m Q P R0 → (∀ e, R0 e → spec W (h e) Q P R) → spec W (try_except m h) Q P R.
Proof.
  intros Hm Hh st. destruct (Hm st) as (new1 & Ht1 & Hs1 & HQ1 & Hr1).
  unfold try_except. destruct (m st) as [[a|e] st1]; simpl in *.
  - by exists new1.
  - destruct (Hh e Hr1 st1) as (new2 & Ht2 & Hs2 & HQ2 & Hr2).
    exists (new2 ++ new1)%list. rewrite Ht2, Hs2, Ht1, Hs1, replay_app, app_assoc.
    repeat split; [by apply Forall_app | done].
Qed.

Lemma spec_weaken {A} (m : M A) (P P' : A → Prop) (R R' : PyExc → Prop) :
  spec W m Q P R → (∀ a, P a → P' a) → (∀ e, R e → R' e) → spec W m Q P' R'.
Proof.
  intros Hm HP HR st. destruct (Hm st) as (new & Ht & Hs & HQ & Hr).
  exists new. repeat split; try done. destruct (fst (m st)); auto.
Qed.

(** What is known of the value from the run itself may be added to the
    postcondition. *)
Lemma spec_post {A} (m : M A) (P P' : A → Prop) R :
  spec W m Q P R → (∀ st a, fst (m st) = Ok a → P' a) →
  spec W m Q (λ a, P a ∧ P' a) R.
Proof.
  intros Hm HP st. destruct (Hm st) as (new & Ht & Hs & HQ & Hr).
  exists new. repeat split; try done.
  specialize (HP st). destruct (fst (m st)); auto.
Qed.

Lemma spec_write bucket key payload (P : unit → Prop) (R : PyExc → Prop) :
  Q (EPutObject bucket key payload) → P tt → (∀ e, R e) →
  spec W (_write_json_to_s3 W bucket key payload) Q P R.
Proof.
  intros HQ HP HR st.
  destruct (write_json_cases W bucket key payload st) as [(_ & _ & ->)|(e & -> & _)].
  - exists [EPutObject bucket key payload]. simpl. by repeat constructor.
  - exists []. simpl. by repeat constructor.
Qed.

Lemma spec_for_each {A} (l : list A) (body : A → M unit) R :
  (∀ x, spec W (body x) Q (λ _, True) R) → spec W (for_each l body) Q (λ _, True) R.
Proof.
  intros Hbody. induction l as [|x l IH]; simpl.
  - by apply spec_ret.
  - eapply spec_bind; [apply Hbody | intros _ _; apply IH].
Qed.

Lemma spec_for_return {A B} (l : list A) (body : A → M (option B)) R :
  (∀ x, spec W (body x) Q (λ _, True) R) → spec W (for_return l body) Q (λ _, True) R.
Proof.
  intros Hbody. induction l as [|x l IH]; simpl.
  - by apply spec_ret.
  - eapply spec_bind; [apply Hbody|]. intros [v|] _; [by apply spec_ret | apply IH].
Qed.

End Spec.

(** ** The notification step *)

Lemma replay_notification W new s : Forall is_notification new → replay W new s = s.
Proof.
  induction 1 as [|ev new Hev _ IH]; simpl; [done|].
  rewrite IH. by destruct ev.
Qed.

Lemma slack_message_Ok W data owner lead_id status now :
  is_Ok (slack_message W (JDict (enriched_of data owner lead_id status now)) lead_id).
Proof. eexists. reflexivity. Qed.

Section Notify.

Context (W : World) (cfg : Config) (Q : Effect → Prop).

Hypothesis Q_secret : ∀ name, Q (EGetSecret name).
Hypothesis Q_post : ∀ url data, Q (EHttpPost url data).
Hypothesis Q_print : ∀ line, Q (EPrint line).

Lemma spec_seq {A B} (m : M A) (k : A → M B) (P : B → Prop) R :
  spec W m Q anything R → (∀ a, spec W (k a) Q P R) → spec W (m ≫= k) Q P R.
Proof. intros Hm Hk. eapply spec_bind; [exact Hm | intros a _; apply Hk]. Qed.

Lemma spec_lift_any {A} (r : Res A) : spec W (lift r) Q anything anything.
Proof. apply spec_lift. by destruct r. Qed.

(** [_slack_url] never raises: whatever goes wrong is printed and the
    result is [None]. *)
Lemma spec_slack_url : spec W (_slack_url W cfg) Q anything nothing.
Proof.
  unfold _slack_url. destruct (SLACK_SECRET_NAME cfg) as [name|]; [|by apply spec_ret].
  destruct (String.eqb name EmptyString); [by apply spec_ret|].
  eapply (spec_try _ _ _ _ _ anything).
  - apply spec_seq; [by apply spec_history|]. intros h.
    apply spec_seq; [by apply spec_emit|]. intros _.
    apply spec_seq; [apply spec_lift_any|]. intros sec.
    apply spec_seq; [apply spec_lift_any|]. intros s.
    apply spec_seq; [apply spec_lift_any|]. intros data.
    apply spec_seq; [apply spec_lift_any|]. intros u1.
    destruct (py_truthy u1); [by apply spec_ret|].
    apply spec_seq; [apply spec_lift_any|]. intros u2.
    destruct (py_truthy u2); [by apply spec_ret | apply spec_lift_any].
  - intros e _. apply spec_seq; [by apply spec_emit|]. intros _. by apply spec_ret.
Qed.

(** [_post_slack] raises only what the construction of the request
    raises, or what reading the body of an HTTP error answer raises. *)
Lemma spec_post_slack hook msg :
  spec W (_post_slack W hook msg) Q anything
    (λ e, Request W hook = Raise e ∨ error_body_raises W e).
Proof.
  unfold _post_slack.
  eapply (spec_bind _ _ _ _ anything).
  { apply spec_lift. destruct (Request W hook); [done | by left]. }
  intros req _.
  eapply (spec_try _ _ _ _ _ (λ err, ∃ h req data, urlopen_post W h req data = Raise err)).
  - apply spec_seq; [by apply spec_history|]. intros h.
    apply spec_seq; [by apply spec_emit|]. intros _.
    apply spec_lift. destruct (urlopen_post W h req _) eqn:Hpost; [done | by eauto].
  - intros err (h & req' & data & Hpost).
    destruct (isinstance_HTTPError err) eqn:Hhttp; [|by apply spec_ret].
    eapply (spec_bind _ _ _ _ anything); [|intros body _; by apply spec_ret].
    apply spec_lift. destruct (error_body W err) eqn:Hbody; [done|].
    right. by exists h, req', data, err.
Qed.

(** The notification step performs notification effects only; it raises
    only when the message cannot be built, the construction of the request
    raises or the body of an HTTP error answer cannot be read. *)
Lemma spec_notify enriched lead_id (P : json → Prop) :
  (∀ st hook, fst (_slack_url W cfg st) = Ok hook → P hook) →
  spec W (notify W cfg enriched lead_id) Q anything
    (λ e, slack_message W enriched lead_id = Raise e
          ∨ (∃ hook, P hook ∧ py_truthy hook = true ∧ Request W hook = Raise e)
          ∨ error_body_raises W e).
Proof.
  intros HP. unfold notify.
  eapply (spec_bind _ _ _ _ (λ hook, True ∧ P hook)).
  { eapply spec_weaken; [apply (spec_post _ _ _ _ P _ spec_slack_url HP) | done | done]. }
  intros hook [_ Hhook]. destruct (py_truthy hook) eqn:Htruthy; [|by apply spec_ret].
  eapply (spec_bind _ _ _ _ anything).
  { apply spec_lift. destruct (slack_message W enriched lead_id); [done | by left]. }
  intros msg _.
  eapply (spec_bind _ _ _ _ anything).
  { eapply spec_weaken; [apply spec_post_slack | done |].
    intros e [He|He]; right; [left; eauto | by right]. }
  intros [status body] _. by apply spec_emit.
Qed.

End Notify.

(** When the resolved target is well formed and the body of an HTTP
    error answer can be read, the notification step ends normally after
    notification effects only, and the store is as before: a failed secret
    read, a failed POST and an error status are all swallowed. *)
Lemma notify_ok W cfg data owner lead_id status now st :
  hook_wellformed W cfg →
  error_bodies_readable W →
  ∃ new,
    notify W cfg (JDict (enriched_of data owner lead_id status now)) lead_id st
    = (Ok tt, mkState (s3_objects st) (new ++ trace st)%list)
    ∧ Forall is_notification new.
Proof.
  intros Hwf Hread.
  destruct (spec_notify W cfg is_notification (λ _, I) (λ _ _, I) (λ _, I)
              (JDict (enriched_of data owner lead_id status now)) lead_id
              (λ hook, py_truthy hook = true → is_Ok (Request W hook)) Hwf st)
    as (new & Ht & Hs & HQ & Hr).
  rewrite (replay_notification _ _ _ HQ) in Hs.
  exists new. split; [|done].
  destruct (notify _ _ _ _ _) as [[[]|e] [s t]]; simpl in *; subst.
  - done.
  - destruct Hr as [Hmsg | [(hook & Hok & Htruthy & Hreq) | (h & req & d & err & _ & Herr & Hbody)]].
    + destruct (slack_message_Ok W data owner lead_id status now) as [msg Hmsg'].
      congruence.
    + destruct (Hok Htruthy) as [req Hreq']. congruence.
    + destruct (Hread err Herr) as [body Hbody']. congruence.
Qed.

(** In every case the notification step leaves the store as it was. *)
Lemma notify_store W cfg enriched lead_id st :
  ∃ new,
    snd (notify W cfg enriched lead_id st) = mkState (s3_objects st) (new ++ trace st)%list
    ∧ Forall is_notification new.
Proof.
  destruct (spec_notify W cfg is_notification (λ _, I) (λ _ _, I) (λ _, I)
              enriched lead_id (λ _, True) (λ _ _ _, I) st)
    as (new & Ht & Hs & HQ & Hr).
  rewrite (replay_notification _ _ _ HQ) in Hs.
  exists new. split; [|done].
  destruct (snd _) as [s t]; simpl in *; by subst.
Qed.

(** ** The effects of the whole handler *)

Lemma error_key_not_curated day lead_id : is_curated_key (error_key day lead_id) = false.
Proof. reflexivity. Qed.

Lemma curated_key_is_curated day lead_id : is_curated_key (curated_key day lead_id) = true.
Proof. reflexivity. Qed.

Section HandlerEffects.

Context (W : World) (cfg : Config) (Q : Effect → Prop).

(** [Q] holds of every effect that is neither a write nor a lookup
    request, of a lookup request unless the lookup is switched off, of a
    write outside the curated prefix, and of the write of a curated artifact
    built by the merge with one of the three statuses: from the empty owner
    record and with the status "skipped" when the lookup is switched off,
    from an answer of the directory when the status is "ok", from the empty
    owner record otherwise. *)
Hypothesis Q_plain : ∀ ev, is_put ev = false → is_http_get ev = false → Q ev.
Hypothesis Q_get : SKIP_OWNER_LOOKUP cfg = false → ∀ url, Q (EHttpGet url).
Hypothesis Q_other_put : ∀ b k p, is_curated_key k = false → Q (EPutObject b k p).
Hypothesis Q_curated : ∀ day lead_id data owner status now,
  (SKIP_OWNER_LOOKUP cfg = true → owner = ∅ ∧ status = "skipped") →
  status ∈ lookup_statuses →
  (status = "ok" → owner_answer W cfg lead_id (JDict owner)) →
  (status ≠ "ok" → owner = ∅) →
  Q (EPutObject (CURATED_BUCKET cfg) (curated_key day lead_id)
       (JDict (enriched_of data owner lead_id status now))).

Local Ltac step := first
  [ apply spec_seq; [ | intro ]
  | by apply spec_ret
  | by apply spec_raise
  | by apply spec_lift_any
  | by apply spec_history
  | by (apply spec_emit; [done | by apply Q_plain | done]) ].

Lemma spec_now_iso : spec W (_now_iso W) Q anything anything.
Proof. unfold _now_iso. repeat step. Qed.

Lemma spec_read_json bucket key :
  spec W (_read_json_from_s3 W bucket key) Q anything anything.
Proof.
  unfold _read_json_from_s3, s3_get_object.
  apply spec_seq; [|intros body; step].
  destruct bucket; try by apply spec_raise.
  apply spec_seq; [step|]. intros _ st. exists [].
  destruct (s3_objects st !! _); by repeat split.
Qed.

(** What a request returns is the decoded text of a response. *)
Lemma spec_owner_request url :
  SKIP_OWNER_LOOKUP cfg = false →
  spec W (owner_request W url) Q
    (λ v, ∃ h text, urlopen_get W h url = Ok text ∧ json_loads W text = Ok v) anything.
Proof.
  intros Hskip. unfold owner_request.
  apply spec_seq; [step|]. intros h.
  apply spec_seq; [by apply spec_emit; [done | apply Q_get | done]|]. intros _.
  eapply (spec_bind _ _ _ _ (λ text, urlopen_get W h url = Ok text)).
  { apply spec_lift. by destruct (urlopen_get W h url). }
  intros text Htext. apply spec_lift.
  destruct (json_loads W text) eqn:Hloads; [by eauto | done].
Qed.

Lemma spec_fetch_owner_loop url n : ∀ last,
  SKIP_OWNER_LOOKUP cfg = false →
  spec W (fetch_owner_loop W url n last) Q
    (λ v, ∃ h text, urlopen_get W h url = Ok text ∧ json_loads W text = Ok v) anything.
Proof.
  induction n as [|n IH]; intros last Hskip; simpl.
  - destruct last; by apply spec_raise.
  - eapply (spec_try _ _ _ _ _ anything); [by apply spec_owner_request|].
    intros e _. destruct (String.eqb _ _); [by apply spec_raise|].
    apply spec_seq; [step | intros _; by apply IH].
Qed.

Lemma spec_write_error_artifact day lead_id reason extra :
  spec W (_write_error_artifact W cfg day lead_id reason extra) Q anything anything.
Proof.
  unfold _write_error_artifact.
  apply spec_seq; [apply spec_now_iso|]. intros now.
  apply spec_write; [|done..]. apply Q_other_put, error_key_not_curated.
Qed.

(** The lookup ends with one of the three statuses: "skipped" and the
    empty record when it is switched off, "ok" and an answer of the
    directory, or "permanent_failed" and the empty record. *)
Lemma spec_lookup_owner day lead_id :
  spec W (lookup_owner W cfg day lead_id) Q
    (λ r, (SKIP_OWNER_LOOKUP cfg = true → r = (JDict ∅, "skipped"))
          ∧ r.2 ∈ lookup_statuses
          ∧ (r.2 = "ok" → owner_answer W cfg lead_id r.1)
          ∧ (r.2 ≠ "ok" → r.1 = JDict ∅))
    anything.
Proof.
  unfold lookup_owner.
  case_eq (SKIP_OWNER_LOOKUP cfg); intros Hskip.
  { apply spec_ret. unfold lookup_statuses. cbn [fst snd].
    split; [done|]. split; [repeat constructor|]. by split. }
  eapply (spec_try _ _ _ _ _ anything).
  - eapply spec_bind; [by apply spec_fetch_owner_loop|].
    intros owner Howner. apply spec_ret. unfold lookup_statuses. cbn [fst snd].
    split; [done|]. split; [repeat constructor|]. by split.
  - intros e _. destruct (String.eqb _ _); [|by apply spec_raise].
    apply spec_seq; [apply spec_write_error_artifact|]. intros _. apply spec_ret.
    unfold lookup_statuses. cbn [fst snd].
    split; [done|]. split; [repeat constructor|]. by split.
Qed.

Lemma spec_build_enriched d owner_payload lead_id status :
  spec W (build_enriched W d owner_payload lead_id status) Q
    (λ v, ∃ data owner now,
       owner_payload = JDict owner ∧ v = JDict (enriched_of data owner lead_id status now))
    anything.
Proof.
  intros st.
  pose proof (build_enriched_inv W d owner_payload lead_id status st) as Hinv.
  destruct (build_enriched_state W d owner_payload lead_id status st) as [Hs [Ht|Ht]].
  - exists []. repeat split; [done.. | constructor |].
    destruct (fst _); [by apply Hinv | done].
  - exists [ENow]. repeat split; [done.. | constructor; [by apply Q_plain | constructor] |].
    destruct (fst _); [by apply Hinv | done].
Qed.

Lemma spec_notify_any enriched lead_id :
  spec W (notify W cfg enriched lead_id) Q anything anything.
Proof.
  eapply spec_weaken; [|done|done].
  apply (spec_notify W cfg Q) with (P := λ _, True); try done.
  all: intros; by apply Q_plain.
Qed.

Lemma spec_process_rec rec : spec W (process_rec W cfg rec) Q anything anything.
Proof.
  unfold process_rec.
  apply spec_seq; [step|]. intros bucket.
  apply spec_seq; [step|]. intros key.
  apply spec_seq; [step|]. intros [[day lead_id]|]; [|step].
  apply spec_seq; [apply spec_read_json|]. intros raw.
  apply spec_seq; [step|]. intros d.
  eapply spec_bind; [apply spec_lookup_owner|].
  intros [owner_payload status] (Hskip & Hstatus & Hok & Hother).
  eapply spec_bind; [apply spec_build_enriched|].
  intros enriched (data & owner & now & -> & ->).
  apply spec_seq; [|intros _; apply spec_notify_any].
  cbn [fst snd] in *.
  apply spec_write; [|done..]. apply Q_curated; [|done|done|].
  - intros Hs. specialize (Hskip Hs). by simplify_eq.
  - intros Hne. specialize (Hother Hne). by simplify_eq.
Qed.

Lemma spec_process_record record :
  spec W (process_record W cfg record) Q anything anything.
Proof.
  unfold process_record.
  apply spec_seq; [step|]. intros body_text.
  apply spec_seq; [step|]. intros body.
  apply spec_seq; [step|]. intros wrapped.
  apply spec_seq; [destruct wrapped; step|]. intros s3_event.
  apply spec_seq; [step|]. intros recs.
  apply spec_seq; [|intros _; step].
  apply spec_for_each. apply spec_process_rec.
Qed.

Lemma spec_lambda_handler event :
  spec W (lambda_handler W cfg event) Q anything anything.
Proof.
  unfold lambda_handler.
  apply spec_seq; [step|]. intros records.
  apply spec_seq; [|intros result; step].
  apply spec_for_return. apply spec_process_record.
Qed.

End HandlerEffects.

(** ** One raw object, step by step *)

Lemma read_json_Ok W bucket key text raw st :
  s3_objects st !! (bucket, key) = Some text →
  json_loads W text = Ok raw →
  _read_json_from_s3 W (JStr bucket) key st
  = (Ok raw, mkState (s3_objects st) (EGetObject bucket key :: trace st)).
Proof.
  intros Hobj Hload.
  unfold _read_json_from_s3, s3_get_object, emit, lift, mbind, M_bind. simpl.
  by rewrite Hobj, Hload.
Qed.

Lemma write_accepted_Ok W bucket key payload st :
  write_accepted W bucket key payload →
  _write_json_to_s3 W bucket key payload st
  = (Ok tt, mkState (<[(bucket, key) := json_dumps W true payload]> (s3_objects st))
                    (EPutObject bucket key payload :: trace st)).
Proof. intros [Henc Hput]. by apply write_json_Ok. Qed.

Lemma lookup_owner_skipped W cfg day lead_id st :
  SKIP_OWNER_LOOKUP cfg = true →
  lookup_owner W cfg day lead_id st = (Ok (JDict ∅, "skipped"), st).
Proof. intros Hskip. unfold lookup_owner. by rewrite Hskip. Qed.

(** The retrying client never touches the store. *)
Lemma fetch_owner_loop_store W url n : ∀ last st,
  s3_objects (snd (fetch_owner_loop W url n last st)) = s3_objects st.
Proof.
  induction n as [|n IH]; intros last st; simpl.
  - by destruct last.
  - unfold try_except.
    pose proof (owner_request_state W url st) as Hst.
    destruct (owner_request W url st) as [[v|e] st1]; simpl in Hst; subst st1; [done|].
    destruct (String.eqb _ _); [done|].
    unfold mbind, M_bind, emit. cbn [s3_objects trace]. by rewrite IH.
Qed.

(** A lookup that fails with an error classified permanent: the error
    artifact is written, and the lookup ends normally with the empty owner
    record. *)
Lemma lookup_owner_permanent W cfg day lead_id st e st1 :
  SKIP_OWNER_LOOKUP cfg = false →
  fetch_owner_json W (owner_url cfg lead_id) st = (Raise e, st1) →
  classify_lookup_error e = "permanent" →
  let now := now_iso W (trace st1) in
  let err := JDict (error_payload lead_id ("permanent:" +:+ exc_type e) now (exc_str e)) in
  write_accepted W (ERROR_BUCKET cfg) (error_key day lead_id) err →
  lookup_owner W cfg day lead_id st
  = (Ok (JDict ∅, "permanent_failed"),
     mkState (<[(ERROR_BUCKET cfg, error_key day lead_id) := json_dumps W true err]>
                (s3_objects st1))
             (EPutObject (ERROR_BUCKET cfg) (error_key day lead_id) err
                :: ENow :: trace st1)).
Proof.
  intros Hskip Hrun Hperm now err Hwrite. unfold lookup_owner. rewrite Hskip.
  change (OWNER_BASE cfg +:+ "/" +:+ lead_id +:+ ".json") with (owner_url cfg lead_id).
  erewrite try_except_Raise by (erewrite bind_Raise; [reflexivity | exact Hrun]).
  rewrite Hperm. cbn [String.eqb Ascii.eqb Bool.eqb].
  erewrite bind_Ok; [reflexivity|].
  unfold _write_error_artifact.
  erewrite bind_Ok by reflexivity.
  cbn [py_truthy negb].
  rewrite bool_decide_eq_false_2 by (by apply insert_non_empty).
  cbn [negb].
  by rewrite (write_accepted_Ok _ _ _ _ _ Hwrite).
Qed.

(** On a data block that is no object the merge raises at its first
    [data.get], before anything else is done. *)
Lemma build_enriched_non_object W d owner_payload lead_id status st :
  (∀ data, d ≠ JDict data) →
  build_enriched W d owner_payload lead_id status st = (Raise (AttributeError d "get"), st).
Proof.
  intros Hd. unfold build_enriched, lift, mbind, M_bind.
  destruct d; try reflexivity. by destruct (Hd d).
Qed.

Section ProcessRec.

Context (W : World) (cfg : Config).
Context (rec : json) (st : State) (bucket key day lead_id text : string).
Context (raw d : json).

Hypothesis H_bucket : rec_bucket rec = Ok (JStr bucket).
Hypothesis H_key : rec_key W rec = Ok key.
Hypothesis H_parse : parse_key key = Ok (Some (day, lead_id)).
Hypothesis H_object : s3_objects st !! (bucket, key) = Some text.
Hypothesis H_loads : json_loads W text = Ok raw.
Hypothesis H_data : raw_data raw = Ok d.

(** Once the lookup has ended normally, the merge, the curated write and
    the notification step follow. *)
Lemma process_rec_lookup owner_payload status st2 :
  lookup_owner W cfg day lead_id (mkState (s3_objects st) (EGetObject bucket key :: trace st))
  = (Ok (owner_payload, status), st2) →
  process_rec W cfg rec st
  = (enriched ← build_enriched W d owner_payload lead_id status;
     _write_json_to_s3 W (CURATED_BUCKET cfg) (curated_key day lead_id) enriched;;
     notify W cfg enriched lead_id) st2.
Proof.
  intros Hlookup. unfold process_rec.
  erewrite bind_Ok by (unfold lift; by rewrite H_bucket).
  erewrite bind_Ok by (unfold lift; by rewrite H_key).
  erewrite bind_Ok by (unfold lift; by rewrite H_parse).
  cbv beta iota.
  erewrite bind_Ok by (by apply (read_json_Ok _ _ _ text)).
  erewrite bind_Ok by (unfold lift; by rewrite H_data).
  erewrite bind_Ok by exact Hlookup.
  reflexivity.
Qed.

(** With a data block that is an object and a curated write that is
    accepted, the curated artifact is written and the notification step
    runs last. *)
Lemma process_rec_persist data owner status st2 :
  d = JDict data →
  lookup_owner W cfg day lead_id (mkState (s3_objects st) (EGetObject bucket key :: trace st))
  = (Ok (JDict owner, status), st2) →
  let enriched := JDict (enriched_of data owner lead_id status (now_iso W (trace st2))) in
  write_accepted W (CURATED_BUCKET cfg) (curated_key day lead_id) enriched →
  process_rec W cfg rec st
  = notify W cfg enriched lead_id
      (mkState (<[(CURATED_BUCKET cfg, curated_key day lead_id) := json_dumps W true enriched]>
                  (s3_objects st2))
               (EPutObject (CURATED_BUCKET cfg) (curated_key day lead_id) enriched
                  :: ENow :: trace st2)).
Proof.
  intros Hd Hlookup enriched Hwrite.
  rewrite (process_rec_lookup _ _ _ Hlookup). rewrite Hd.
  erewrite bind_Ok by (by apply build_enriched_run).
  erewrite bind_Ok by (by apply write_accepted_Ok).
  reflexivity.
Qed.

(** With a data block that is no object, the merge raises: nothing is
    written after the lookup. *)
Lemma process_rec_merge_raises owner_payload status st2 :
  (∀ data, d ≠ JDict data) →
  lookup_owner W cfg day lead_id (mkState (s3_objects st) (EGetObject bucket key :: trace st))
  = (Ok (owner_payload, status), st2) →
  process_rec W cfg rec st = (Raise (AttributeError d "get"), st2).
Proof.
  intros Hd Hlookup.
  rewrite (process_rec_lookup _ _ _ Hlookup).
  by erewrite bind_Raise by (by apply build_enriched_non_object).
Qed.

End ProcessRec.

Lemma curated_key_ne_error_key day lead_id :
  curated_key day lead_id ≠ error_key day lead_id.
Proof. unfold curated_key, error_key, CURATED_PREFIX, ERR_PREFIX. simpl. by intros [=]. Qed.

Lemma http_gets_app new tr : http_gets (new ++ tr) = (http_gets new ++ http_gets tr)%list.
Proof. unfold http_gets. by rewrite omap_app. Qed.

Lemma http_gets_notification new : Forall is_notification new → http_gets new = [].
Proof.
  induction 1 as [|ev new Hev _ IH]; [done|].
  destruct ev; try done; exact IH.
Qed.

(** ** Permanent lookup failure *)




(** ** Lookup switched off *)




(** Scenario B on the examples: lead L1, whose lookup would fail, is
    enriched without any request. *)
Example scenario_B_demo :
  fst (run_demo true None [demo_key "L1"]) = Ok (JDict {[ "ok" := JBool true ]})
  ∧ http_gets (trace (snd (run_demo true None [demo_key "L1"]))) = []
  ∧ (λ p, (field "lead_owner" p, field "owner_lookup_status" p))
      <$> puts_at "curated-bucket" (curated_key "2024-03-01" "L1")
            (trace (snd (run_demo true None [demo_key "L1"])))
    = [(JNull, JStr "skipped")].
Proof. repeat split; vm_compute; reflexivity. Qed.

(** ** The assignee *)


(** Scenario A on the examples: the owner of L2 is alice, and so is the
    assignee. *)
Example assignee_demo :
  (λ p, (field "lead_owner" p, field "assignee" p, field "owner_lookup_status" p))
    <$> puts_at "curated-bucket" (curated_key "2024-03-01" "L2")
          (trace (snd (run_demo false None [demo_key "L2"])))
  = [(JStr "alice", JStr "alice", JStr "ok")].
Proof. vm_compute. reflexivity. Qed.

(** ** The notification step and the request object *)

(** C9. With a notification secret whose URL has no scheme, the
    construction of the request raises ValueError before the [try] of
    [_post_slack] is entered: the exception leaves the handler although the
    curated artifact of L2 is already in the store.  With a well-formed URL
    the same delivery ends normally. *)
Theorem request_error_escapes_notification :
  Request demo_world (JStr "hooks.slack.example/services/T0/B0/X")
  = Raise (plain_exc "ValueError"
             "unknown url type: 'hooks.slack.example/services/T0/B0/X'")
  ∧ fst (run_demo false (Some "slack/bad-url") [demo_key "L2"])
    = Raise (plain_exc "ValueError"
               "unknown url type: 'hooks.slack.example/services/T0/B0/X'")
  ∧ is_Some (s3_objects (snd (run_demo false (Some "slack/bad-url") [demo_key "L2"]))
               !! ("curated-bucket", curated_key "2024-03-01" "L2"))
  ∧ fst (run_demo false (Some "slack/webhook") [demo_key "L2"])
    = Ok (JDict {[ "ok" := JBool true ]}).
Proof.
  repeat split; try (vm_compute; reflexivity).
  vm_compute. eexists. reflexivity.
Qed.

(** A secret that cannot be read is swallowed. *)
Example unreadable_secret_demo :
  fst (run_demo false (Some "slack/missing") [demo_key "L2"])
  = Ok (JDict {[ "ok" := JBool true ]}).
Proof. vm_compute. reflexivity. Qed.

(** ** The records of a delivery *)

(** The body of the outer loop never falls through: it returns or
    raises. *)
Lemma process_record_returns W cfg record st :
  fst (process_record W cfg record st) ≠ Ok None.
Proof.
  unfold process_record, mbind, M_bind.
  repeat case_match; simpl; try done.
Qed.

(** Only the first queue record of a delivery is looked at. *)
Lemma lambda_handler_first_record W cfg (event : gmap string json) record rest st :
  event !! "Records" = Some (JList (record :: rest)) →
  lambda_handler W cfg (JDict event) st
  = lambda_handler W cfg (JDict {[ "Records" := JList [record] ]}) st.
Proof.
  intros Hrec.
  assert (∀ (ev : gmap string json) l, ev !! "Records" = Some (JList l) →
          lift (r ← py_get (JDict ev) "Records" (JList []); py_iter r) st = (Ok l, st))
    as Hrecords.
  { intros ev l Hl. unfold lift. simpl. by rewrite Hl. }
  unfold lambda_handler.
  rewrite (bind_Ok _ _ _ _ _ (Hrecords event _ Hrec)).
  rewrite (bind_Ok _ _ _ _ _ (Hrecords {[ "Records" := JList [record] ]} _
                                (lookup_singleton_eq _ _))).
  pose proof (process_record_returns W cfg record st) as Hreturns.
  simpl. unfold mbind, M_bind.
  destruct (process_record W cfg record st) as [[[v|]|e] st1]; simpl in *; done.
Qed.

(** C2. A delivery with two queue records, for L1 and for L2: the handler
    returns success after the first one.  The raw object of L2 is never read
    and no curated artifact is written for it, although the handler enriches
    L2 when it comes alone. *)
Theorem later_records_not_processed :
  fst (run_demo false None [demo_key "L1"; demo_key "L2"])
  = Ok (JDict {[ "ok" := JBool true ]})
  ∧ gets_of (trace (snd (run_demo false None [demo_key "L1"; demo_key "L2"])))
    = [("raw-bucket", demo_key "L1")]
  ∧ s3_objects (snd (run_demo false None [demo_key "L1"; demo_key "L2"]))
      !! ("curated-bucket", curated_key "2024-03-01" "L2") = None
  ∧ is_Some (s3_objects (snd (run_demo false None [demo_key "L2"]))
               !! ("curated-bucket", curated_key "2024-03-01" "L2")).
Proof.
  repeat split; try (vm_compute; reflexivity).
  vm_compute. eexists. reflexivity.
Qed.

(** * Further properties of the code *)

(** ** Which keys are skipped, parsed, refused *)

Lemma prefix_app p s : String.prefix p s = true → ∃ r, s = p +:+ r.
Proof.
  revert s. induction p as [|c p IH]; intros s.
  - intros _. by exists s.
  - destruct s as [|c' s]; simpl; [done|].
    destruct (Ascii.ascii_dec c c') as [<-|]; [|done].
    intros [r ->]%IH. by exists r.
Qed.

Lemma str_split_nonempty sep s : str_split sep None s ≠ [].
Proof.
  destruct s as [|c s]; simpl; [done|].
  destruct (Ascii.eqb c sep); [done|]. by destruct (str_split sep None s).
Qed.

(** Splitting at most once: the text before and after the first separator,
    or the whole text when there is none. *)
Lemma str_split_first sep s :
  py_index (str_split sep (Some 1%nat) s) 1
  = match str_after sep s with
    | Some rest => Ok rest
    | None => Raise (plain_exc "IndexError" "list index out of range")
    end.
Proof.
  assert (∀ s, ∃ w, str_split sep (Some 1%nat) s
                    = w :: match str_after sep s with Some rest => [rest] | None => [] end)
    as Hshape.
  { clear s. induction s as [|c s [w IH]]; simpl; [by eexists|].
    destruct (Ascii.eqb c sep).
    - rewrite str_split_zero. by eexists.
    - rewrite IH. by eexists. }
  destruct (Hshape s) as [w ->]. by destruct (str_after sep s).
Qed.

(** Under the raw prefix the first two segments are [crm] and
    [lead_created]. *)
Lemma raw_prefix_parts key :
  String.prefix (RAW_PREFIX +:+ "/") key = true →
  ∃ rest, str_split "/" None key = "crm" :: "lead_created" :: rest ∧ rest ≠ [].
Proof.
  intros [r ->]%prefix_app.
  change ((RAW_PREFIX +:+ "/") +:+ r)
    with ("crm" +:+ String "/" ("lead_created" +:+ String "/" r)).
  rewrite !str_split_app by reflexivity.
  eexists. split; [reflexivity | apply str_split_nonempty].
Qed.

Lemma parse_key_None_iff key :
  parse_key key = Ok None
  ↔ String.prefix (RAW_PREFIX +:+ "/") key = false
    ∨ (length (str_split "/" None key) < 5)%nat.
Proof.
  unfold parse_key.
  destruct (String.prefix (RAW_PREFIX +:+ "/") key) eqn:Hprefix; simpl; [|by split; auto].
  destruct (raw_prefix_parts key Hprefix) as (rest & -> & _).
  rewrite !bool_decide_eq_true_2 by done. simpl.
  destruct rest as [|p2 [|p3 [|p4 rest]]]; simpl.
  1-3: split; [intros _; right; lia | done].
  - rewrite !str_split_first.
    split.
    + by destruct (str_after "=" p2), (str_after "=" p3).
    + intros [|]; [done | lia].
Qed.

Lemma parse_key_Some_prefix key day lead_id :
  parse_key key = Ok (Some (day, lead_id)) →
  String.prefix (RAW_PREFIX +:+ "/") key = true.
Proof.
  unfold parse_key. by destruct (String.prefix (RAW_PREFIX +:+ "/") key).
Qed.

(** X1. A key is skipped exactly when it does not start with
    [crm/lead_created/] or has fewer than five segments. *)
Theorem parse_key_skips_iff (key : string) :
  parse_key key = Ok None
  ↔ String.prefix (RAW_PREFIX +:+ "/") key = false
    ∨ (length (str_split "/" None key) < 5)%nat.
Proof. apply parse_key_None_iff. Qed.

(** X2. A key under the raw prefix with five segments or more is parsed
    from its third and fourth segments alone: the day and the identifier are
    the texts after the first [=] of each, and IndexError is raised when one of
    the two has no [=]. *)
Theorem parse_key_segments (key p2 p3 : string) :
  String.prefix (RAW_PREFIX +:+ "/") key = true →
  (5 ≤ length (str_split "/" None key))%nat →
  str_split "/" None key !! 2%nat = Some p2 →
  str_split "/" None key !! 3%nat = Some p3 →
  parse_key key
  = match str_after "=" p2, str_after "=" p3 with
    | Some day, Some lead_id => Ok (Some (day, lead_id))
    | _, _ => Raise (plain_exc "IndexError" "list index out of range")
    end.
Proof.
  intros Hprefix Hlen H2 H3. unfold parse_key. rewrite Hprefix. simpl.
  destruct (raw_prefix_parts key Hprefix) as (rest & Hparts & _).
  rewrite Hparts in *.
  rewrite !bool_decide_eq_true_2 by done.
  destruct rest as [|q2 [|q3 [|q4 rest]]]; simpl in *; try lia.
  simplify_eq. rewrite !str_split_first.
  by destruct (str_after "=" p2), (str_after "=" p3).
Qed.

(** A key with a sixth segment and other marker names. *)
Lemma parse_key_segments_witness :
  parse_key "crm/lead_created/day=2024-03-01/id=a=b/x/y.json"
  = match str_after "=" "day=2024-03-01", str_after "=" "id=a=b" with
    | Some day, Some lead_id => Ok (Some (day, lead_id))
    | _, _ => Raise (plain_exc "IndexError" "list index out of range")
    end.
Proof.
  apply (parse_key_segments "crm/lead_created/day=2024-03-01/id=a=b/x/y.json"
           "day=2024-03-01" "id=a=b"); [reflexivity | simpl; lia | reflexivity | reflexivity].
Defined.

(** ** The retry loop in general *)

Lemma sleeps_retry_trace url k tr : sleeps (retry_trace url k tr) = (k + sleeps tr)%nat.
Proof.
  induction k as [|k IH]; [done|].
  change (sleeps (retry_trace url (S k) tr)) with (S (sleeps (retry_trace url k tr))).
  by rewrite IH.
Qed.

(** The loop with a budget of [S n] attempts ends with the outcome of the
    request made after some [k ≤ n] retried failures; it sleeps once more
    only when this outcome is itself retryable, the budget being used up. *)
Lemma fetch_owner_loop_shape W url n : ∀ last st, ∃ k,
  (k ≤ n)%nat
  ∧ (∀ j, (j < k)%nat → retryable (fst (owner_request W url (after_retries url j st))) = true)
  ∧ let r := fst (owner_request W url (after_retries url k st)) in
    fetch_owner_loop W url (S n) last st
    = (r, mkState (s3_objects st)
            ((if retryable r then [ESleep] else [])
               ++ EHttpGet url :: retry_trace url k (trace st))%list)
    ∧ (retryable r = true → k = n).
Proof.
  assert (∀ st, after_retries url 0 st = st) as Hzero by (by intros []).
  assert (∀ m last st,
            retryable (fst (owner_request W url st)) = false →
            fetch_owner_loop W url (S m) last st
            = (fst (owner_request W url st),
               mkState (s3_objects st) (EHttpGet url :: trace st))) as Hstop.
  { intros m last st. destruct (fst (owner_request W url st)) as [v|e] eqn:Hreq.
    - intros _. by apply fetch_owner_loop_Ok.
    - intros Hc%negb_false_iff%String.eqb_eq. by apply fetch_owner_loop_permanent. }
  assert (∀ m last st,
            retryable (fst (owner_request W url st)) = true →
            ∃ e, fst (owner_request W url st) = Raise e
                 ∧ fetch_owner_loop W url (S m) last st
                   = fetch_owner_loop W url m (Some e)
                       (mkState (s3_objects st) (ESleep :: EHttpGet url :: trace st)))
    as Hgo.
  { intros m last st. destruct (fst (owner_request W url st)) as [v|e] eqn:Hreq; [done|].
    intros Hc%negb_true_iff%String.eqb_neq. exists e. split; [done|].
    by apply fetch_owner_loop_retry. }
  induction n as [|n IH]; intros last st.
  - exists 0%nat. split; [lia|]. split; [intros j; lia|].
    cbv zeta. rewrite Hzero.
    destruct (retryable (fst (owner_request W url st))) eqn:Hr.
    + destruct (Hgo 0%nat last st Hr) as (e & He & ->). rewrite He. by split.
    + rewrite (Hstop _ _ _ Hr). by split.
  - destruct (retryable (fst (owner_request W url st))) eqn:Hr.
    + destruct (Hgo (S n) last st Hr) as (e & He & ->).
      destruct (IH (Some e) (mkState (s3_objects st) (ESleep :: EHttpGet url :: trace st)))
        as (k & Hk & Hbefore & Hrun & Hlast).
      assert (∀ j, after_retries url j
                     (mkState (s3_objects st) (ESleep :: EHttpGet url :: trace st))
                   = after_retries url (S j) st) as Hshift.
      { intros j. unfold after_retries. cbn [s3_objects trace].
        by rewrite retry_trace_shift. }
      exists (S k). split; [lia|].
      split.
      { intros [|j] Hj; [by rewrite Hzero|]. rewrite <- Hshift. apply Hbefore. lia. }
      rewrite Hshift in *. cbn [s3_objects trace] in *.
      rewrite retry_trace_shift in Hrun.
      split; [exact Hrun|]. intros Hr'. by rewrite (Hlast Hr').
    + exists 0%nat. split; [lia|]. split; [intros j; lia|].
      cbv zeta. rewrite Hzero, Hr. rewrite (Hstop _ _ _ Hr). by split.
Qed.

(** X3. Whatever the directory answers, [fetch_owner_json] makes at least
    one and at most RETRY_TRANSIENT + 1 requests, all to the given URL, sleeps
    at most once per request and leaves the object store as it is. *)
Theorem fetch_owner_json_bounded (W : World) (url : string) (st : State) :
  ∃ n,
    (1 ≤ n ≤ RETRY_TRANSIENT + 1)%nat
    ∧ http_gets (trace (snd (fetch_owner_json W url st)))
      = (replicate n url ++ http_gets (trace st))%list
    ∧ (sleeps (trace (snd (fetch_owner_json W url st))) ≤ n + sleeps (trace st))%nat
    ∧ s3_objects (snd (fetch_owner_json W url st)) = s3_objects st.
Proof.
  destruct (fetch_owner_loop_shape W url RETRY_TRANSIENT None st)
    as (k & Hk & _ & Hrun & _).
  unfold fetch_owner_json.
  replace (RETRY_TRANSIENT + 1)%nat with (S RETRY_TRANSIENT) by reflexivity.
  cbv zeta in Hrun. rewrite Hrun. cbn [snd s3_objects trace].
  exists (S k). split; [unfold RETRY_TRANSIENT in *; lia|].
  split; [|split; [|done]].
  - rewrite http_gets_app.
    replace (http_gets (if retryable _ then [ESleep] else [])) with (@nil string)
      by (by destruct (retryable _)).
    change (http_gets (EHttpGet url :: ?t)) with (url :: http_gets t).
    by rewrite http_gets_retry_trace.
  - pose proof (sleeps_retry_trace url k (trace st)) as Hsleeps.
    destruct (retryable _).
    + change (sleeps ([ESleep] ++ EHttpGet url :: retry_trace url k (trace st)))
        with (S (sleeps (retry_trace url k (trace st)))). lia.
    + change (sleeps ([] ++ EHttpGet url :: retry_trace url k (trace st)))
        with (sleeps (retry_trace url k (trace st))). lia.
Qed.

(** X4. The result of [fetch_owner_json] is the outcome of the last
    request it makes: the first one that succeeds or fails permanently, or,
    when every one fails otherwise, the last of the budget (after which it
    still sleeps once before raising). *)
Theorem fetch_owner_json_last_request (W : World) (url : string) (st : State) :
  ∃ k,
    (k ≤ RETRY_TRANSIENT)%nat
    ∧ (∀ j, (j < k)%nat →
            retryable (fst (owner_request W url (after_retries url j st))) = true)
    ∧ fst (fetch_owner_json W url st) = fst (owner_request W url (after_retries url k st))
    ∧ trace (snd (fetch_owner_json W url st))
      = ((if retryable (fst (owner_request W url (after_retries url k st)))
          then [ESleep] else [])
           ++ EHttpGet url :: retry_trace url k (trace st))%list
    ∧ (retryable (fst (owner_request W url (after_retries url k st))) = true →
       k = RETRY_TRANSIENT).
Proof.
  destruct (fetch_owner_loop_shape W url RETRY_TRANSIENT None st)
    as (k & Hk & Hbefore & Hrun & Hlast).
  unfold fetch_owner_json.
  replace (RETRY_TRANSIENT + 1)%nat with (S RETRY_TRANSIENT) by reflexivity.
  cbv zeta in Hrun. rewrite Hrun. by exists k.
Qed.

(** A directory that fails once, then answers: the owner record is
    returned after two requests and one sleep. *)
Example fetch_owner_json_second_attempt :
  let W := mkWorld demo_json_loads show_json id (show_json false)
             (λ _, "2024-03-02T00:00:00+00:00")
             (λ h _, match http_gets h with
                     | [] => Raise (url_error "<urlopen error timed out>")
                     | _ => Ok (show_json true demo_owner)
                     end)
             demo_get_secret_value demo_Request (λ _ _ _, Ok (200, "ok"))
             (error_body demo_world) (put_object demo_world) in
  fetch_owner_json W "https://owners.example/L2.json" (mkState ∅ [])
  = (Ok demo_owner,
     mkState ∅
       [EHttpGet "https://owners.example/L2.json"; ESleep;
        EHttpGet "https://owners.example/L2.json"]).
Proof. vm_compute. reflexivity. Qed.

(** ** Every effect of the enrichment handler *)

Lemma classic_notifications cfg : notifications_on cfg ∨ ¬ notifications_on cfg.
Proof.
  unfold notifications_on. destruct (SLACK_SECRET_NAME cfg) as [name|].
  - destruct (String.eqb_spec name EmptyString) as [->|Hname].
    + right. by intros (n & [= <-] & Hn).
    + left. eauto.
  - right. by intros (n & Hn & _).
Qed.

Section PreciseEffects.

Context (W : World) (cfg : Config).

Local Abbreviation Q := (handler_effect cfg).

Lemma spec_lift_eq {A} (r : Res A) : spec W (lift r) Q (λ a, r = Ok a) anything.
Proof. apply spec_lift. by destruct r. Qed.

Lemma effect_now_iso : spec W (_now_iso W) Q anything anything.
Proof.
  unfold _now_iso.
  apply spec_seq; [by apply spec_history|]. intros h.
  apply spec_seq; [by apply spec_emit|]. intros _. by apply spec_ret.
Qed.

Lemma effect_read_json bucket key :
  String.prefix (RAW_PREFIX +:+ "/") key = true →
  spec W (_read_json_from_s3 W bucket key) Q anything anything.
Proof.
  intros Hprefix. unfold _read_json_from_s3, s3_get_object.
  apply spec_seq; [|intros body; apply spec_lift_any].
  destruct bucket; try by apply spec_raise.
  apply spec_seq; [by apply spec_emit|]. intros _ st. exists [].
  destruct (s3_objects st !! _); by repeat split.
Qed.

Lemma effect_fetch_owner_loop lead_id n : ∀ last,
  SKIP_OWNER_LOOKUP cfg = false →
  spec W (fetch_owner_loop W (owner_url cfg lead_id) n last) Q anything anything.
Proof.
  induction n as [|n IH]; intros last Hskip; simpl.
  - destruct last; by apply spec_raise.
  - eapply (spec_try _ _ _ _ _ anything).
    + unfold owner_request.
      apply spec_seq; [by apply spec_history|]. intros h.
      apply spec_seq; [apply spec_emit; [done | split; eauto | done]|]. intros _.
      apply spec_seq; [apply spec_lift_any | intros text; apply spec_lift_any].
    + intros e _. destruct (String.eqb _ _); [by apply spec_raise|].
      apply spec_seq; [by apply spec_emit | intros _; by apply IH].
Qed.

Lemma effect_write_error_artifact day lead_id kind detail :
  spec W (_write_error_artifact W cfg day lead_id ("permanent:" +:+ kind)
            (Some {[ "detail" := JStr detail ]})) Q anything anything.
Proof.
  unfold _write_error_artifact.
  apply spec_seq; [apply effect_now_iso|]. intros now.
  apply spec_write; [|done..]. right. by exists day, lead_id, kind, now, detail.
Qed.

Lemma effect_lookup_owner day lead_id :
  spec W (lookup_owner W cfg day lead_id) Q
    (λ r, r.2 ∈ lookup_statuses ∧ (r.2 ≠ "ok" → r.1 = JDict ∅)) anything.
Proof.
  unfold lookup_owner.
  case_eq (SKIP_OWNER_LOOKUP cfg); intros Hskip.
  { apply spec_ret. split; [set_solver | done]. }
  eapply (spec_try _ _ _ _ _ anything).
  - apply spec_seq; [by apply effect_fetch_owner_loop|]. intros owner.
    apply spec_ret. split; [set_solver | done].
  - intros e _. destruct (String.eqb _ _); [|by apply spec_raise].
    apply spec_seq; [apply effect_write_error_artifact|]. intros _.
    apply spec_ret. split; [set_solver | done].
Qed.

Lemma effect_build_enriched d owner_payload lead_id status :
  spec W (build_enriched W d owner_payload lead_id status) Q
    (λ v, ∃ data owner now,
       owner_payload = JDict owner ∧ v = JDict (enriched_of data owner lead_id status now))
    anything.
Proof.
  intros st.
  pose proof (build_enriched_inv W d owner_payload lead_id status st) as Hinv.
  destruct (build_enriched_state W d owner_payload lead_id status st) as [Hs [Ht|Ht]].
  - exists []. repeat split; [done.. | constructor |].
    destruct (fst _); [by apply Hinv | done].
  - exists [ENow]. repeat split; [done.. | by repeat constructor |].
    destruct (fst _); [by apply Hinv | done].
Qed.

(** Without a notification secret the notification step does nothing. *)
Lemma notify_off enriched lead_id st :
  ¬ notifications_on cfg → notify W cfg enriched lead_id st = (Ok tt, st).
Proof.
  intros Hoff. unfold notify, _slack_url, notifications_on in *.
  destruct (SLACK_SECRET_NAME cfg) as [name|]; [|done].
  destruct (String.eqb_spec name EmptyString) as [->|Hname]; [done|].
  destruct Hoff. eauto.
Qed.

Lemma effect_notify enriched lead_id :
  spec W (notify W cfg enriched lead_id) Q anything anything.
Proof.
  destruct (classic_notifications cfg) as [Hon|Hoff].
  - eapply spec_weaken; [|done|done].
    by apply (spec_notify W cfg Q) with (P := λ _, True).
  - intros st. rewrite (notify_off _ _ _ Hoff). by exists [].
Qed.

Lemma effect_process_rec rec : spec W (process_rec W cfg rec) Q anything anything.
Proof.
  unfold process_rec.
  apply spec_seq; [apply spec_lift_any|]. intros bucket.
  apply spec_seq; [apply spec_lift_any|]. intros key.
  eapply spec_bind; [apply spec_lift_eq|]. intros [[day lead_id]|] Hparse;
    [|by apply spec_ret].
  assert (String.prefix (RAW_PREFIX +:+ "/") key = true) as Hprefix.
  { destruct (String.prefix (RAW_PREFIX +:+ "/") key) eqn:Hp; [done|].
    unfold parse_key in Hparse. by rewrite Hp in Hparse. }
  apply spec_seq; [by apply effect_read_json|]. intros raw.
  apply spec_seq; [apply spec_lift_any|]. intros d.
  eapply spec_bind; [apply effect_lookup_owner|].
  intros [owner_payload status] [Hstatus Hempty]. simpl in Hstatus, Hempty.
  eapply spec_bind; [apply effect_build_enriched|].
  intros enriched (data & owner & now & -> & ->).
  apply spec_seq; [|intros _; apply effect_notify].
  apply spec_write; [|done..]. left.
  exists day, lead_id, data, owner, status, now. repeat split; try done.
  intros Hs. specialize (Hempty Hs). by simplify_eq.
Qed.

Lemma effect_process_record record :
  spec W (process_record W cfg record) Q anything anything.
Proof.
  unfold process_record.
  apply spec_seq; [apply spec_lift_any|]. intros body_text.
  apply spec_seq; [apply spec_lift_any|]. intros body.
  apply spec_seq; [apply spec_lift_any|]. intros wrapped.
  apply spec_seq; [destruct wrapped; [apply spec_lift_any | by apply spec_ret]|].
  intros s3_event.
  apply spec_seq; [apply spec_lift_any|]. intros recs.
  apply spec_seq; [|intros _; by apply spec_ret].
  apply spec_for_each. apply effect_process_rec.
Qed.

(** Every effect of a run of the handler is a [handler_effect], and the
    store changes by the writes among them only. *)
Lemma effect_lambda_handler event :
  spec W (lambda_handler W cfg event) Q anything anything.
Proof.
  unfold lambda_handler.
  apply spec_seq; [apply spec_lift_any|]. intros records.
  apply spec_seq; [|intros result; by apply spec_ret].
  apply spec_for_return. apply effect_process_record.
Qed.

End PreciseEffects.

(** ** What the handler reads, requests and writes *)

Lemma handler_run W cfg event st :
  ∃ new,
    trace (snd (lambda_handler W cfg event st)) = (new ++ trace st)%list
    ∧ s3_objects (snd (lambda_handler W cfg event st)) = replay W new (s3_objects st)
    ∧ Forall (handler_effect cfg) new.
Proof.
  destruct (effect_lambda_handler W cfg event st) as (new & Ht & Hs & HQ & _). eauto.
Qed.

Lemma raw_prefix_not_curated day lead_id :
  String.prefix (RAW_PREFIX +:+ "/") (curated_key day lead_id) = false.
Proof. reflexivity. Qed.

Lemma raw_prefix_not_error day lead_id :
  String.prefix (RAW_PREFIX +:+ "/") (error_key day lead_id) = false.
Proof. reflexivity. Qed.

(** The store at a place that no write of the trace addresses. *)
Lemma replay_frame W cfg new s bucket key :
  Forall (handler_effect cfg) new →
  (∀ day lead_id, (bucket, key) ≠ (CURATED_BUCKET cfg, curated_key day lead_id)) →
  (∀ day lead_id, (bucket, key) ≠ (ERROR_BUCKET cfg, error_key day lead_id)) →
  replay W new s !! (bucket, key) = s !! (bucket, key).
Proof.
  intros HQ Hcur Herr. induction HQ as [|ev new Hev _ IH]; [done|].
  destruct ev; simpl; try exact IH.
  rewrite lookup_insert_ne; [exact IH|].
  destruct Hev as [(d & i & _ & _ & _ & _ & -> & -> & _)|(d & i & _ & _ & _ & -> & -> & _)].
  - intros Heq. by apply (Hcur d i).
  - intros Heq. by apply (Herr d i).
Qed.

(** X5. A run of the handler changes the store at curated keys of the
    curated bucket and at error keys of the error bucket only: every other
    object is left as it was. *)
Theorem store_frame (W : World) (cfg : Config) (event : json) (st : State)
    (bucket key : string) :
  (∀ day lead_id, (bucket, key) ≠ (CURATED_BUCKET cfg, curated_key day lead_id)) →
  (∀ day lead_id, (bucket, key) ≠ (ERROR_BUCKET cfg, error_key day lead_id)) →
  s3_objects (snd (lambda_handler W cfg event st)) !! (bucket, key)
  = s3_objects st !! (bucket, key).
Proof.
  intros Hcur Herr. destruct (handler_run W cfg event st) as (new & _ & -> & HQ).
  by apply (replay_frame W cfg).
Qed.

Lemma store_frame_witness :
  s3_objects (snd (run_demo false None [demo_key "L1"])) !! ("raw-bucket", demo_key "L2")
  = s3_objects demo_state !! ("raw-bucket", demo_key "L2").
Proof.
  apply (store_frame demo_world (demo_cfg false None)); intros day lead_id [=].
Defined.

(** X6. Raw objects are never modified: whatever the delivery and the
    configuration (even with the raw bucket as curated or error bucket), the
    object under a key that starts with [crm/lead_created/] is after the run
    what it was before. *)
Theorem raw_objects_untouched (W : World) (cfg : Config) (event : json) (st : State)
    (bucket key : string) :
  String.prefix (RAW_PREFIX +:+ "/") key = true →
  s3_objects (snd (lambda_handler W cfg event st)) !! (bucket, key)
  = s3_objects st !! (bucket, key).
Proof.
  intros Hraw. destruct (handler_run W cfg event st) as (new & _ & -> & HQ).
  apply (replay_frame W cfg); [done| |]; intros day lead_id [= _ ->].
  - by rewrite raw_prefix_not_curated in Hraw.
  - by rewrite raw_prefix_not_error in Hraw.
Qed.

Lemma raw_objects_untouched_witness :
  s3_objects (snd (lambda_handler demo_world
                     (mkConfig false "https://owners.example" "raw-bucket" "raw-bucket" None)
                     (demo_event [demo_key "L1"]) demo_state))
    !! ("raw-bucket", demo_key "L1")
  = s3_objects demo_state !! ("raw-bucket", demo_key "L1").
Proof. apply raw_objects_untouched. reflexivity. Defined.

(** X7. The handler reads objects under [crm/lead_created/] only, sends
    lookup requests to [OWNER_BASE/<lead_id>.json] only, and neither requests
    nor sleeps when SKIP_OWNER_LOOKUP is set. *)
Theorem handler_io_in_scope (W : World) (cfg : Config) (event : json) (st : State) :
  ∃ new,
    trace (snd (lambda_handler W cfg event st)) = (new ++ trace st)%list
    ∧ Forall (io_in_scope cfg) new.
Proof.
  destruct (handler_run W cfg event st) as (new & Ht & _ & HQ).
  exists new. split; [done|].
  eapply Forall_impl; [exact HQ|]. by intros [].
Qed.

(** X8. Every curated artifact the handler writes sits in the curated
    bucket at the curated key of the lead it names, carries one of the statuses
    "ok", "skipped", "permanent_failed", and has null owner fields unless the
    status is "ok"; every other write is an error artifact in the error bucket,
    at the error key of the lead it names, with a reason "permanent:...". *)
Theorem artifacts_wellformed (W : World) (cfg : Config) (event : json) (st : State) :
  ∃ new,
    trace (snd (lambda_handler W cfg event st)) = (new ++ trace st)%list
    ∧ Forall (curated_wellformed cfg) new
    ∧ Forall (error_wellformed cfg) new.
Proof.
  destruct (handler_run W cfg event st) as (new & Ht & _ & HQ).
  exists new. split; [done|]. split.
  - eapply Forall_impl; [exact HQ|]. intros [] Hev; try done. simpl in *.
    intros Hkey.
    destruct Hev as [(d & i & data & owner & status & now & -> & -> & -> & Hst & Hown)
                    |(d & i & _ & _ & _ & _ & -> & _)].
    + split; [done|]. exists d, i, status.
      split; [done|]. split; [reflexivity|]. split; [reflexivity|]. split; [done|].
      intros Hs. rewrite (Hown Hs). by repeat split.
    + by rewrite error_key_not_curated in Hkey.
  - eapply Forall_impl; [exact HQ|]. intros [] Hev; try done. simpl in *.
    intros Hkey.
    destruct Hev as [(d & i & _ & _ & _ & _ & _ & -> & _)
                    |(d & i & kind & now & detail & -> & -> & ->)].
    + by rewrite curated_key_is_curated in Hkey.
    + split; [done|]. by exists d, i, kind.
Qed.

(** X9. Without a notification secret (SLACK_SECRET_NAME unset or empty)
    the handler reads no secret, posts nothing and prints nothing. *)
Theorem notifications_off_silent (W : World) (cfg : Config) (event : json) (st : State) :
  ¬ notifications_on cfg →
  ∃ new,
    trace (snd (lambda_handler W cfg event st)) = (new ++ trace st)%list
    ∧ Forall silent new.
Proof.
  intros Hoff. destruct (handler_run W cfg event st) as (new & Ht & _ & HQ).
  exists new. split; [done|].
  eapply Forall_impl; [exact HQ|]. by intros [].
Qed.

Lemma notifications_off_silent_witness :
  ∃ new,
    trace (snd (run_demo false (Some EmptyString) [demo_key "L2"])) = (new ++ [])%list
    ∧ Forall silent new.
Proof.
  apply (notifications_off_silent demo_world (demo_cfg false (Some EmptyString))).
  intros (name & Hname & Hne). simpl in Hname. by injection Hname as <-.
Defined.

(** ** One record of the object-store event, path by path *)

(** X10. A record whose key does not start with [crm/lead_created/] or
    has fewer than five segments is passed over without any effect: nothing
    is read, requested, written or posted. *)
Theorem skipped_record_no_effect (W : World) (cfg : Config) (rec bucket : json)
    (key : string) (st : State) :
  rec_bucket rec = Ok bucket →
  rec_key W rec = Ok key →
  String.prefix (RAW_PREFIX +:+ "/") key = false
    ∨ (length (str_split "/" None key) < 5)%nat →
  process_rec W cfg rec st = (Ok tt, st).
Proof.
  intros Hb Hk Hskip%parse_key_None_iff. unfold process_rec.
  erewrite bind_Ok by (unfold lift; by rewrite Hb).
  erewrite bind_Ok by (unfold lift; by rewrite Hk).
  erewrite bind_Ok by (unfold lift; by rewrite Hskip).
  reflexivity.
Qed.

Lemma skipped_record_no_effect_witness :
  process_rec demo_world (demo_cfg false None)
    (JDict {[ "s3" := JDict (list_to_map
       [("bucket", JDict {[ "name" := JStr "raw-bucket" ]});
        ("object", JDict {[ "key" := JStr "crm/lead_created/readme.txt" ]})]) ]})
    demo_state
  = (Ok tt, demo_state).
Proof.
  apply (skipped_record_no_effect demo_world (demo_cfg false None) _
           (JStr "raw-bucket") "crm/lead_created/readme.txt");
    [reflexivity | reflexivity | right; simpl; lia].
Defined.

(** The lookup whose first request is answered: it ends normally with
    that answer after this one request, and writes nothing. *)
Lemma lookup_owner_first_answer W cfg day lead_id owner text st :
  SKIP_OWNER_LOOKUP cfg = false →
  urlopen_get W (trace st) (owner_url cfg lead_id) = Ok text →
  json_loads W text = Ok owner →
  lookup_owner W cfg day lead_id st
  = (Ok (owner, "ok"),
     mkState (s3_objects st) (EHttpGet (owner_url cfg lead_id) :: trace st)).
Proof.
  intros Hskip Hget Hloads.
  unfold lookup_owner. rewrite Hskip. fold (owner_url cfg lead_id).
  assert (fst (owner_request W (owner_url cfg lead_id) st) = Ok owner) as Hreq.
  { unfold owner_request, history, emit, lift, mbind, M_bind. simpl.
    by rewrite Hget, Hloads. }
  unfold try_except, fetch_owner_json, mbind at 1, M_bind at 1.
  replace (RETRY_TRANSIENT + 1)%nat with (S RETRY_TRANSIENT) by reflexivity.
  by rewrite (fetch_owner_loop_Ok _ _ _ _ _ _ Hreq).
Qed.

(** The lookup with a steady answer: it ends normally with that answer,
    writes nothing, and makes one request unless it is switched off. *)
Lemma lookup_owner_steady W cfg day lead_id owner status st :
  steady_lookup W cfg lead_id owner status →
  ∃ tr,
    lookup_owner W cfg day lead_id st
    = (Ok (JDict owner, status), mkState (s3_objects st) (tr ++ trace st)%list)
    ∧ tr = if SKIP_OWNER_LOOKUP cfg then [] else [EHttpGet (owner_url cfg lead_id)].
Proof.
  intros [(Hskip & -> & ->)|(Hskip & -> & text & Hget & Hloads)].
  - exists []. rewrite Hskip. split; [|done].
    rewrite (lookup_owner_skipped _ _ _ _ _ Hskip). by destruct st.
  - exists [EHttpGet (owner_url cfg lead_id)]. rewrite Hskip. split; [|done].
    by apply (lookup_owner_first_answer _ _ _ _ _ text).
Qed.

Section Paths.

Context (W : World) (cfg : Config).
Context (rec : json) (st : State) (bucket key day lead_id text : string).
Context (raw : json) (data : gmap string json).

Hypothesis H_bucket : rec_bucket rec = Ok (JStr bucket).
Hypothesis H_key : rec_key W rec = Ok key.
Hypothesis H_parse : parse_key key = Ok (Some (day, lead_id)).
Hypothesis H_object : s3_objects st !! (bucket, key) = Some text.
Hypothesis H_loads : json_loads W text = Ok raw.
Hypothesis H_raw : raw_fields raw = Some data.

(** The state after the read of the raw object. *)
Local Abbreviation st_read := (mkState (s3_objects st) (EGetObject bucket key :: trace st)).

(** With a steady lookup and a store that accepts the curated artifact,
    the store after the record is the store before it with the curated
    artifact put at its key, whatever the notification step does. *)
Lemma process_rec_steady owner status :
  steady_lookup W cfg lead_id owner status →
  (∀ h, write_accepted W (CURATED_BUCKET cfg) (curated_key day lead_id)
          (JDict (enriched_of data owner lead_id status (now_iso W h)))) →
  ∃ tr new,
    let now := now_iso W (tr ++ trace st_read)%list in
    let enriched := JDict (enriched_of data owner lead_id status now) in
    let st_put :=
      mkState (<[(CURATED_BUCKET cfg, curated_key day lead_id) := json_dumps W true enriched]>
                 (s3_objects st))
              (EPutObject (CURATED_BUCKET cfg) (curated_key day lead_id) enriched
                 :: ENow :: tr ++ trace st_read)%list in
    process_rec W cfg rec st = notify W cfg enriched lead_id st_put
    ∧ snd (process_rec W cfg rec st)
      = mkState (s3_objects st_put) (new ++ trace st_put)%list
    ∧ Forall is_notification new
    ∧ tr = if SKIP_OWNER_LOOKUP cfg then [] else [EHttpGet (owner_url cfg lead_id)].
Proof.
  intros Hsteady Hwrite.
  destruct (lookup_owner_steady W cfg day lead_id owner status st_read Hsteady)
    as (tr & Hlookup & Htr).
  pose proof (process_rec_persist W cfg rec st bucket key day lead_id text raw (JDict data)
                H_bucket H_key H_parse H_object H_loads (raw_fields_get _ _ H_raw)
                data _ _ _ eq_refl Hlookup (Hwrite _)) as Hrun.
  cbv zeta in Hrun. cbn [s3_objects trace] in Hrun.
  exists tr. edestruct notify_store as (new & Hstore & Hnew). exists new.
  cbv zeta. rewrite Hrun. split; [reflexivity|]. split; [exact Hstore|]. by split.
Qed.

(** The lookup whose every request fails otherwise than permanently: the
    last error leaves [lookup_owner], after the whole budget. *)
Lemma lookup_owner_exhausted st0 :
  SKIP_OWNER_LOOKUP cfg = false →
  (∀ s, ∃ e, fst (owner_request W (owner_url cfg lead_id) s) = Raise e
             ∧ classify_lookup_error e ≠ "permanent") →
  ∃ e,
    lookup_owner W cfg day lead_id st0
    = (Raise e, mkState (s3_objects st0)
                  (retry_trace (owner_url cfg lead_id) (RETRY_TRANSIENT + 1) (trace st0)))
    ∧ classify_lookup_error e ≠ "permanent".
Proof.
  intros Hskip Hfail.
  destruct (fetch_owner_loop_exhausts W _ Hfail RETRY_TRANSIENT None st0)
    as (e & Hrun & Hlast).
  destruct (Hfail (mkState (s3_objects st0)
                     (retry_trace (owner_url cfg lead_id) RETRY_TRANSIENT (trace st0))))
    as (e' & He' & Hc).
  assert (e' = e) as -> by congruence.
  exists e. split; [|done].
  unfold lookup_owner. rewrite Hskip. fold (owner_url cfg lead_id).
  unfold try_except, fetch_owner_json, mbind at 1, M_bind at 1.
  replace (RETRY_TRANSIENT + 1)%nat with (S RETRY_TRANSIENT) by reflexivity.
  rewrite Hrun. apply String.eqb_neq in Hc. by rewrite Hc.
Qed.

End Paths.

(** X11. A record whose raw object is present and well shaped and whose
    first lookup request returns an owner record: the handler makes this one
    request and writes no error artifact; when the store accepts the curated
    artifact, it is written with the status "ok" and the owner, the e-mail
    and the funnel of the record (the assignee being the owner); and the
    record ends normally when, besides, the notification target, if there
    is one, is a URL that the request constructor accepts and the body of
    an HTTP error answer to the POST can be read. *)
Theorem lookup_success_enriches (W : World) (cfg : Config) (rec : json) (st : State)
    (bucket key day lead_id text owner_text : string) (raw : json)
    (data owner : gmap string json) :
  SKIP_OWNER_LOOKUP cfg = false →
  rec_bucket rec = Ok (JStr bucket) →
  rec_key W rec = Ok key →
  parse_key key = Ok (Some (day, lead_id)) →
  s3_objects st !! (bucket, key) = Some text →
  json_loads W text = Ok raw →
  raw_fields raw = Some data →
  let request := EHttpGet (owner_url cfg lead_id) in
  urlopen_get W (EGetObject bucket key :: trace st) (owner_url cfg lead_id) = Ok owner_text →
  json_loads W owner_text = Ok (JDict owner) →
  let enriched := enriched_of data owner lead_id "ok"
                    (now_iso W (request :: EGetObject bucket key :: trace st)) in
  write_accepted W (CURATED_BUCKET cfg) (curated_key day lead_id) (JDict enriched) →
  let st' := snd (process_rec W cfg rec st) in
  s3_objects st' !! (CURATED_BUCKET cfg, curated_key day lead_id)
  = Some (json_dumps W true (JDict enriched))
  ∧ enriched !! "owner_lookup_status" = Some (JStr "ok")
  ∧ enriched !! "lead_owner" = Some (from_option id JNull (owner !! "lead_owner"))
  ∧ enriched !! "assignee" = Some (from_option id JNull (owner !! "lead_owner"))
  ∧ enriched !! "lead_email" = Some (from_option id JNull (owner !! "lead_email"))
  ∧ enriched !! "funnel" = Some (from_option id JNull (owner !! "funnel"))
  ∧ enriched !! "display_name" = Some (from_option id JNull (data !! "display_name"))
  ∧ s3_objects st' !! (ERROR_BUCKET cfg, error_key day lead_id)
    = s3_objects st !! (ERROR_BUCKET cfg, error_key day lead_id)
  ∧ http_gets (trace st') = owner_url cfg lead_id :: http_gets (trace st)
  ∧ (hook_wellformed W cfg → error_bodies_readable W →
     fst (process_rec W cfg rec st) = Ok tt).
Proof.
  intros Hskip Hb Hk Hp Hobj Hload Hraw request Hget Howner enriched Hwrite st'.
  unfold st'.
  rewrite (process_rec_persist W cfg rec st bucket key day lead_id text raw (JDict data)
             Hb Hk Hp Hobj Hload (raw_fields_get _ _ Hraw) data owner "ok" _ eq_refl
             (lookup_owner_first_answer W cfg day lead_id (JDict owner) owner_text
                (mkState (s3_objects st) (EGetObject bucket key :: trace st))
                Hskip Hget Howner) Hwrite).
  cbn [s3_objects trace]. fold request enriched.
  match goal with |- context [notify W cfg _ lead_id ?s] => set (stn := s) end.
  destruct (notify_store W cfg (JDict enriched) lead_id stn) as (new & Hst & Hnew).
  split; [rewrite Hst; unfold stn; cbn [s3_objects]; by rewrite lookup_insert_eq|].
  do 6 (split; [reflexivity|]).
  split.
  { rewrite Hst. unfold stn. cbn [s3_objects].
    by rewrite lookup_insert_ne
      by (intros [= _ Hkeys]; by apply curated_key_ne_error_key in Hkeys). }
  split.
  { rewrite Hst. unfold stn. cbn [trace].
    rewrite http_gets_app, (http_gets_notification _ Hnew). reflexivity. }
  intros Hwf Hread.
  destruct (notify_ok W cfg data owner lead_id "ok"
              (now_iso W (request :: EGetObject bucket key :: trace st)) stn Hwf Hread)
    as (new' & Hnotify & _).
  fold enriched in Hnotify. by rewrite Hnotify.
Qed.

(** The delivery of the examples for lead L2, whose owner is alice. *)
Lemma lookup_success_enriches_witness :
  let run := process_rec demo_world (demo_cfg false (Some "slack/webhook"))
               (JDict {[ "s3" := JDict (list_to_map
                  [("bucket", JDict {[ "name" := JStr "raw-bucket" ]});
                   ("object", JDict {[ "key" := JStr (demo_key "L2") ]})]) ]})
               demo_state in
  ∃ enriched,
    fst run = Ok tt
    ∧ s3_objects (snd run) !! ("curated-bucket", curated_key "2024-03-01" "L2")
      = Some (show_json true (JDict enriched))
    ∧ enriched !! "owner_lookup_status" = Some (JStr "ok")
    ∧ enriched !! "lead_owner" = Some (JStr "alice")
    ∧ enriched !! "assignee" = Some (JStr "alice")
    ∧ enriched !! "lead_email" = Some (JStr "a@x.com")
    ∧ enriched !! "funnel" = Some JNull
    ∧ enriched !! "display_name" = Some (JStr "Jane Doe")
    ∧ s3_objects (snd run) !! ("error-bucket", error_key "2024-03-01" "L2") = None
    ∧ http_gets (trace (snd run)) = ["https://owners.example/L2.json"].
Proof.
  cbv zeta.
  edestruct (lookup_success_enriches demo_world (demo_cfg false (Some "slack/webhook"))
               (JDict {[ "s3" := JDict (list_to_map
                  [("bucket", JDict {[ "name" := JStr "raw-bucket" ]});
                   ("object", JDict {[ "key" := JStr (demo_key "L2") ]})]) ]})
               demo_state "raw-bucket" (demo_key "L2") "2024-03-01" "L2"
               (show_json true (demo_raw "L2")) (show_json true demo_owner) (demo_raw "L2")
               (list_to_map [("display_name", JStr "Jane Doe");
                             ("date_created", JStr "2024-03-01T10:00:00")])
               (list_to_map [("lead_owner", JStr "alice"); ("lead_email", JStr "a@x.com")]))
    as (Hcur & H1 & H2 & H3 & H4 & H5 & H6 & Herr & Hgets & Hend);
    [try (vm_compute; reflexivity) .. |].
  { split; [vm_compute; reflexivity | intros h; reflexivity]. }
  eexists. split.
  { apply Hend.
    - intros st hook Hurl _. vm_compute in Hurl. injection Hurl as <-.
      eexists. reflexivity.
    - intros err _. eexists. reflexivity. }
  split; [exact Hcur|]. split; [exact H1|]. split; [exact H2|]. split; [exact H3|].
  split; [exact H4|]. split; [exact H5|]. split; [exact H6|].
  split; [exact Herr | exact Hgets].
Defined.

(** An owner record with a lone surrogate, on the examples: the answer of
    the directory is decoded, the merge is done, and the curated write
    raises UnicodeEncodeError when its text is encoded; nothing is stored
    and the exception leaves the handler. *)
Example surrogate_owner_demo :
  let run := lambda_handler demo_world_surrogate (demo_cfg false None)
               (demo_event [demo_key "L2"]) demo_state in
  exc_type <$> (match fst run with Raise e => Some e | Ok _ => None end)
  = Some "UnicodeEncodeError"
  ∧ trace (snd run)
    = [ENow; EHttpGet "https://owners.example/L2.json";
       EGetObject "raw-bucket" (demo_key "L2")]
  ∧ s3_objects (snd run) !! ("curated-bucket", curated_key "2024-03-01" "L2") = None.
Proof. repeat split; vm_compute; reflexivity. Qed.

(** X12. A record whose every lookup request fails with an error that is
    not classified permanent: after RETRY_TRANSIENT + 1 requests the last error
    leaves the handler; neither a curated nor an error artifact is written (the
    store is unchanged) and no notification is attempted. *)
Theorem transient_failure_propagates (W : World) (cfg : Config) (rec : json) (st : State)
    (bucket key day lead_id text : string) (raw : json) (data : gmap string json) :
  SKIP_OWNER_LOOKUP cfg = false →
  rec_bucket rec = Ok (JStr bucket) →
  rec_key W rec = Ok key →
  parse_key key = Ok (Some (day, lead_id)) →
  s3_objects st !! (bucket, key) = Some text →
  json_loads W text = Ok raw →
  raw_fields raw = Some data →
  (∀ s, ∃ e, fst (owner_request W (owner_url cfg lead_id) s) = Raise e
             ∧ classify_lookup_error e ≠ "permanent") →
  ∃ e,
    process_rec W cfg rec st
    = (Raise e,
       mkState (s3_objects st)
         (retry_trace (owner_url cfg lead_id) (RETRY_TRANSIENT + 1)
            (EGetObject bucket key :: trace st)))
    ∧ classify_lookup_error e ≠ "permanent".
Proof.
  intros Hskip Hb Hk Hp Hobj Hload Hraw Hfail.
  destruct (lookup_owner_exhausted W cfg day lead_id
              (mkState (s3_objects st) (EGetObject bucket key :: trace st)) Hskip Hfail)
    as (e & Hlookup & Hc).
  exists e. split; [|done]. unfold process_rec.
  erewrite bind_Ok by (unfold lift; by rewrite Hb).
  erewrite bind_Ok by (unfold lift; by rewrite Hk).
  erewrite bind_Ok by (unfold lift; by rewrite Hp).
  cbv beta iota.
  erewrite bind_Ok by (by apply (read_json_Ok _ _ _ text)).
  erewrite bind_Ok by (unfold lift; by rewrite (raw_fields_get _ _ Hraw)).
  erewrite bind_Raise by exact Hlookup.
  reflexivity.
Qed.

(** A lead that the directory of the examples does not know: every
    request times out. *)
Lemma transient_failure_propagates_witness :
  ∃ e,
    process_rec demo_world (demo_cfg false None)
      (JDict {[ "s3" := JDict (list_to_map
         [("bucket", JDict {[ "name" := JStr "raw-bucket" ]});
          ("object", JDict {[ "key" := JStr (demo_key "L5") ]})]) ]})
      (mkState {[ ("raw-bucket", demo_key "L5") := show_json true (demo_raw "L1") ]} [])
    = (Raise e,
       mkState {[ ("raw-bucket", demo_key "L5") := show_json true (demo_raw "L1") ]}
         (retry_trace "https://owners.example/L5.json" (RETRY_TRANSIENT + 1)
            [EGetObject "raw-bucket" (demo_key "L5")]))
    ∧ classify_lookup_error e ≠ "permanent".
Proof.
  edestruct (transient_failure_propagates demo_world (demo_cfg false None)
           (JDict {[ "s3" := JDict (list_to_map
              [("bucket", JDict {[ "name" := JStr "raw-bucket" ]});
               ("object", JDict {[ "key" := JStr (demo_key "L5") ]})]) ]})
           (mkState {[ ("raw-bucket", demo_key "L5") := show_json true (demo_raw "L1") ]} [])
           "raw-bucket" (demo_key "L5") "2024-03-01" "L5"
           (show_json true (demo_raw "L1")) (demo_raw "L1")
           (list_to_map [("display_name", JStr "Jane Doe");
                         ("date_created", JStr "2024-03-01T10:00:00")]))
    as (e & Hrun);
    [try (vm_compute; reflexivity) .. |].
  { intros s. exists (url_error "<urlopen error timed out>").
    split; [reflexivity | vm_compute; discriminate]. }
  exists e. exact Hrun.
Defined.

(** Two curated artifacts of the same inputs differ in their time stamp
    only. *)
Lemma enriched_of_stamp data owner lead_id status now now' :
  enriched_of data owner lead_id status now'
  = <["enriched_at" := JStr now']> (enriched_of data owner lead_id status now).
Proof. reflexivity. Qed.

(** X13. Processing the same raw object a second time (a redelivery), the
    lookup answering as before and the store accepting the curated artifact
    whatever its time stamp, overwrites the curated artifact at the same
    key: the store after the second run is the one after the first with that
    artifact replaced, the new artifact differs from the old one in
    [enriched_at] only, and no object appears at any other key. *)
Theorem reprocessing_overwrites (W : World) (cfg : Config) (rec : json) (st : State)
    (bucket key day lead_id text : string) (raw : json) (data owner : gmap string json)
    (status : string) :
  rec_bucket rec = Ok (JStr bucket) →
  rec_key W rec = Ok key →
  parse_key key = Ok (Some (day, lead_id)) →
  s3_objects st !! (bucket, key) = Some text →
  json_loads W text = Ok raw →
  raw_fields raw = Some data →
  steady_lookup W cfg lead_id owner status →
  (∀ h, write_accepted W (CURATED_BUCKET cfg) (curated_key day lead_id)
          (JDict (enriched_of data owner lead_id status (now_iso W h)))) →
  ∃ first second now,
    s3_objects (snd (process_rec W cfg rec st))
    = <[(CURATED_BUCKET cfg, curated_key day lead_id) := json_dumps W true (JDict first)]>
        (s3_objects st)
    ∧ s3_objects (snd (process_rec W cfg rec (snd (process_rec W cfg rec st))))
      = <[(CURATED_BUCKET cfg, curated_key day lead_id) := json_dumps W true (JDict second)]>
          (s3_objects (snd (process_rec W cfg rec st)))
    ∧ second = <["enriched_at" := JStr now]> first
    ∧ dom (s3_objects (snd (process_rec W cfg rec (snd (process_rec W cfg rec st)))))
      = dom (s3_objects (snd (process_rec W cfg rec st))).
Proof.
  intros Hb Hk Hp Hobj Hload Hraw Hsteady Hwrite.
  destruct (process_rec_steady W cfg rec st bucket key day lead_id text raw data
              Hb Hk Hp Hobj Hload Hraw owner status Hsteady Hwrite)
    as (tr1 & new1 & _ & Hst1 & _ & _).
  cbv zeta in Hst1. cbn [s3_objects trace] in Hst1.
  set (st1 := snd (process_rec W cfg rec st)) in *.
  assert (s3_objects st1 !! (bucket, key) = Some text) as Hobj1.
  { rewrite Hst1. cbn [s3_objects]. rewrite lookup_insert_ne; [done|].
    intros [= _ <-]. apply parse_key_Some_prefix in Hp.
    by rewrite raw_prefix_not_curated in Hp. }
  destruct (process_rec_steady W cfg rec st1 bucket key day lead_id text raw data
              Hb Hk Hp Hobj1 Hload Hraw owner status Hsteady Hwrite)
    as (tr2 & new2 & _ & Hst2 & _ & _).
  cbv zeta in Hst2. cbn [s3_objects trace] in Hst2.
  eexists _, _, _. rewrite Hst2. cbn [s3_objects].
  split; [by rewrite Hst1|]. split; [reflexivity|]. split.
  - apply enriched_of_stamp.
  - rewrite Hst1. cbn [s3_objects]. by rewrite insert_insert_eq, !dom_insert_L.
Qed.

Lemma reprocessing_overwrites_witness :
  ∃ first second now,
    s3_objects (snd (process_rec demo_world (demo_cfg true None)
                       (JDict {[ "s3" := JDict (list_to_map
                          [("bucket", JDict {[ "name" := JStr "raw-bucket" ]});
                           ("object", JDict {[ "key" := JStr (demo_key "L1") ]})]) ]})
                       demo_state))
    = <[("curated-bucket", curated_key "2024-03-01" "L1") := show_json true (JDict first)]>
        (s3_objects demo_state)
    ∧ s3_objects (snd (process_rec demo_world (demo_cfg true None)
                         (JDict {[ "s3" := JDict (list_to_map
                            [("bucket", JDict {[ "name" := JStr "raw-bucket" ]});
                             ("object", JDict {[ "key" := JStr (demo_key "L1") ]})]) ]})
                         (snd (process_rec demo_world (demo_cfg true None)
                                 (JDict {[ "s3" := JDict (list_to_map
                                    [("bucket", JDict {[ "name" := JStr "raw-bucket" ]});
                                     ("object", JDict {[ "key" := JStr (demo_key "L1") ]})]) ]})
                                 demo_state))))
      = <[("curated-bucket", curated_key "2024-03-01" "L1") := show_json true (JDict second)]>
          (s3_objects (snd (process_rec demo_world (demo_cfg true None)
                              (JDict {[ "s3" := JDict (list_to_map
                                 [("bucket", JDict {[ "name" := JStr "raw-bucket" ]});
                                  ("object", JDict {[ "key" := JStr (demo_key "L1") ]})]) ]})
                              demo_state)))
    ∧ second = <["enriched_at" := JStr now]> first.
Proof.
  edestruct (reprocessing_overwrites demo_world (demo_cfg true None)
               (JDict {[ "s3" := JDict (list_to_map
                  [("bucket", JDict {[ "name" := JStr "raw-bucket" ]});
                   ("object", JDict {[ "key" := JStr (demo_key "L1") ]})]) ]})
               demo_state "raw-bucket" (demo_key "L1") "2024-03-01" "L1"
               (show_json true (demo_raw "L1")) (demo_raw "L1")
               (list_to_map [("display_name", JStr "Jane Doe");
                             ("date_created", JStr "2024-03-01T10:00:00")])
               ∅ "skipped")
    as (first & second & now & H1 & H2 & H3 & _);
    [try (vm_compute; reflexivity) .. |].
  { left. by repeat split. }
  { intros h. split; [vm_compute; reflexivity | intros h'; reflexivity]. }
  exists first, second, now. split; [exact H1|]. split; [exact H2 | exact H3].
Defined.

(** ** The envelope of a queue record *)

(** X14. A queue record whose body is a fan-out envelope
    [{"Message": "<text of the object-store event>"}] is processed exactly as
    the record whose body is that event itself (the event having no "Message"
    entry of its own). *)
Theorem fanout_envelope_unwrapped (W : World) (cfg : Config)
    (wrapped direct event : json) (wrapped_text direct_text message : string)
    (envelope : gmap string json) (st : State) :
  py_getitem wrapped "body" = Ok (JStr wrapped_text) →
  json_loads W wrapped_text = Ok (JDict envelope) →
  envelope !! "Message" = Some (JStr message) →
  json_loads W message = Ok event →
  py_getitem direct "body" = Ok (JStr direct_text) →
  json_loads W direct_text = Ok event →
  py_contains "Message" event = Ok false →
  process_record W cfg wrapped st = process_record W cfg direct st.
Proof.
  intros Hwb Hwl Hmsg Hml Hdb Hdl Hno.
  unfold process_record.
  rewrite !(bind_Ok (lift (py_getitem wrapped "body")) _ st (JStr wrapped_text) st)
    by (unfold lift; by rewrite Hwb).
  rewrite !(bind_Ok (lift (py_getitem direct "body")) _ st (JStr direct_text) st)
    by (unfold lift; by rewrite Hdb).
  rewrite (bind_Ok (lift (loads W (JStr wrapped_text))) _ st (JDict envelope) st)
    by (unfold lift; simpl; by rewrite Hwl).
  rewrite (bind_Ok (lift (loads W (JStr direct_text))) _ st event st)
    by (unfold lift; simpl; by rewrite Hdl).
  rewrite (bind_Ok (lift (py_contains "Message" (JDict envelope))) _ st true st).
  2: { unfold lift. simpl. rewrite Hmsg. by rewrite bool_decide_eq_true_2 by eauto. }
  rewrite (bind_Ok (lift (py_contains "Message" event)) _ st false st)
    by (unfold lift; by rewrite Hno).
  rewrite (bind_Ok (lift _) _ st event st).
  2: { unfold lift. simpl. rewrite Hmsg. simpl. by rewrite Hml. }
  by rewrite (bind_Ok (mret event) _ st event st).
Qed.

Lemma fanout_envelope_unwrapped_witness :
  process_record demo_world_fanout (demo_cfg false None) (sqs_record demo_envelope) demo_state
  = process_record demo_world_fanout (demo_cfg false None)
      (sqs_record (s3_event_for "raw-bucket" (demo_key "L2"))) demo_state.
Proof.
  apply (fanout_envelope_unwrapped demo_world_fanout (demo_cfg false None) _ _
           (s3_event_for "raw-bucket" (demo_key "L2"))
           (show_json true demo_envelope)
           (show_json true (s3_event_for "raw-bucket" (demo_key "L2")))
           (show_json true (s3_event_for "raw-bucket" (demo_key "L2")))
           {[ "Message" := JStr (show_json true (s3_event_for "raw-bucket" (demo_key "L2"))) ]});
    vm_compute; reflexivity.
Defined.

Example fanout_demo :
  fst (process_record demo_world_fanout (demo_cfg false None) (sqs_record demo_envelope)
         demo_state)
  = Ok (Some (JDict {[ "ok" := JBool true ]})).
Proof. vm_compute. reflexivity. Qed.

(** ** The notification step and the store *)

(** X15. What a record leaves in the store does not depend on the
    notification step: with any notification secret, readable or not, and
    whatever the POST answers or raises, the store after the record is the
    store of the same run without notification secret. *)
Theorem store_independent_of_notification (W : World) (cfg : Config)
    (secret : option string) (rec : json) (st : State) :
  s3_objects (snd (process_rec W (with_secret cfg secret) rec st))
  = s3_objects (snd (process_rec W (with_secret cfg None) rec st)).
Proof.
  unfold process_rec, mbind, M_bind, lift.
  destruct (rec_bucket rec) as [bucket|]; [|done].
  destruct (rec_key W rec) as [key|]; [|done].
  destruct (parse_key key) as [[[day lead_id]|]|]; [|done|done].
  destruct (_read_json_from_s3 W bucket key st) as [[raw|] st1]; [|done].
  destruct (raw_data raw) as [d|]; [|done].
  change (lookup_owner W (with_secret cfg secret) day lead_id)
    with (lookup_owner W (with_secret cfg None) day lead_id).
  destruct (lookup_owner W (with_secret cfg None) day lead_id st1)
    as [[[owner_payload status]|] st2]; [|done].
  destruct (build_enriched W d owner_payload lead_id status st2) as [[enriched|] st3];
    [|done].
  cbn [with_secret CURATED_BUCKET].
  destruct (_write_json_to_s3 W (CURATED_BUCKET cfg) (curated_key day lead_id) enriched st3)
    as [[[]|e] st4]; [|done].
  edestruct (notify_store W (with_secret cfg secret)) as (new & -> & _).
  edestruct (notify_store W (with_secret cfg None)) as (new' & -> & _).
  reflexivity.
Qed.

(** ** What the handler returns *)

Lemma process_record_value W cfg record st v :
  fst (process_record W cfg record st) = Ok (Some v) →
  v = JDict {[ "ok" := JBool true ]}.
Proof.
  unfold process_record, mbind, M_bind.
  repeat case_match; simpl; try done; by intros [= <-].
Qed.

(** X16. When the handler returns normally, it returns [{"ok": True}],
    except for a delivery without any record: it then returns [None], having
    done nothing. *)
Theorem handler_result (W : World) (cfg : Config) (event : json) (st : State) (v : json) :
  fst (lambda_handler W cfg event st) = Ok v →
  v = JDict {[ "ok" := JBool true ]}
  ∨ (v = JNull
     ∧ (r ← py_get event "Records" (JList []); py_iter r) = Ok []
     ∧ lambda_handler W cfg event st = (Ok JNull, st)).
Proof.
  unfold lambda_handler, lift, mbind at 1, M_bind at 1.
  destruct (r ← py_get event "Records" (JList []); py_iter r) as [[|record rest]|] eqn:Hr;
    [| |done].
  - intros [= <-]. by right.
  - simpl. unfold mbind, M_bind.
    pose proof (process_record_returns W cfg record st) as Hret.
    pose proof (process_record_value W cfg record st) as Hval.
    destruct (process_record W cfg record st) as [[[x|]|] st1]; simpl in *; try done.
    intros [= <-]. left. by apply Hval.
Qed.

Lemma handler_result_witness :
  JNull = JDict {[ "ok" := JBool true ]}
  ∨ (JNull = JNull
     ∧ (r ← py_get (JDict ∅) "Records" (JList []); py_iter r) = Ok []
     ∧ lambda_handler demo_world (demo_cfg false None) (JDict ∅) demo_state
       = (Ok JNull, demo_state)).
Proof.
  apply (handler_result demo_world (demo_cfg false None) (JDict ∅) demo_state JNull).
  reflexivity.
Defined.

(** ** Resolving the notification target *)

(** X17. [_slack_url] never raises and never touches the store.  Without
    a secret name it does nothing and returns [None]; with one it reads the
    secret once and returns the target, or prints one line and returns [None]
    when anything fails. *)
Theorem slack_url_total (W : World) (cfg : Config) (st : State) :
  ∃ hook tr,
    _slack_url W cfg st = (Ok hook, mkState (s3_objects st) (tr ++ trace st)%list)
    ∧ match SLACK_SECRET_NAME cfg with
      | None => tr = [] ∧ hook = JNull
      | Some name =>
          if String.eqb name EmptyString then tr = [] ∧ hook = JNull
          else tr = [EGetSecret name]
               ∨ (∃ line, tr = [EPrint line; EGetSecret name] ∧ hook = JNull)
      end.
Proof.
  unfold _slack_url. destruct (SLACK_SECRET_NAME cfg) as [name|].
  2: { exists JNull, []. by destruct st. }
  destruct (String.eqb name EmptyString).
  { exists JNull, []. by destruct st. }
  unfold try_except, history, emit, lift, mbind, M_bind, mret, M_ret.
  cbn [s3_objects trace].
  assert (Hfail : ∀ line : string, ∃ hook tr,
    (Ok JNull, mkState (s3_objects st) (EPrint line :: EGetSecret name :: trace st))
    = (Ok hook, mkState (s3_objects st) (tr ++ trace st)%list)
    ∧ (tr = [EGetSecret name]
       ∨ ∃ line, tr = [EPrint line; EGetSecret name] ∧ hook = JNull)).
  { intros line. exists JNull, [EPrint line; EGetSecret name].
    split; [reflexivity | right; eauto]. }
  assert (Hok : ∀ u : json, ∃ hook tr,
    (Ok u, mkState (s3_objects st) (EGetSecret name :: trace st))
    = (Ok hook, mkState (s3_objects st) (tr ++ trace st)%list)
    ∧ (tr = [EGetSecret name]
       ∨ ∃ line, tr = [EPrint line; EGetSecret name] ∧ hook = JNull)).
  { intros u. exists u, [EGetSecret name]. split; [reflexivity | by left]. }
  destruct (get_secret_value W (trace st) name) as [sec|e]; [|apply Hfail].
  destruct (py_get sec "SecretString" JNull) as [s|e]; [|apply Hfail].
  destruct (loads W (py_or s (JStr "{}"))) as [data|e]; [|apply Hfail].
  destruct (py_get data "url" JNull) as [u1|e]; [|apply Hfail].
  destruct (py_truthy u1); [apply Hok|].
  destruct (py_get data "webhook" JNull) as [u2|e]; [|apply Hfail].
  destruct (py_truthy u2); [apply Hok|].
  destruct (py_get data "SLACK_WEBHOOK_URL" JNull) as [u3|e]; [apply Hok | apply Hfail].
Qed.

(** X18. The target is the first truthy value among the entries "url",
    "webhook" and "SLACK_WEBHOOK_URL" of the secret, in this order ([None]
    when the last one is absent); an empty secret string counts as [{}]. *)
Theorem slack_url_priority (W : World) (cfg : Config) (st : State) (name : string)
    (sec data : gmap string json) :
  SLACK_SECRET_NAME cfg = Some name →
  name ≠ EmptyString →
  get_secret_value W (trace st) name = Ok (JDict sec) →
  loads W (py_or (field "SecretString" (JDict sec)) (JStr "{}")) = Ok (JDict data) →
  fst (_slack_url W cfg st)
  = Ok (py_or (field "url" (JDict data))
          (py_or (field "webhook" (JDict data)) (field "SLACK_WEBHOOK_URL" (JDict data)))).
Proof.
  intros Hname Hne Hsec Hdata. unfold _slack_url. rewrite Hname.
  apply String.eqb_neq in Hne. rewrite Hne.
  unfold try_except, history, emit, lift, mbind, M_bind, mret, M_ret.
  cbn [s3_objects trace]. rewrite Hsec.
  cbn [py_get field] in *. rewrite Hdata. cbn [py_get].
  unfold py_or.
  destruct (py_truthy (from_option id JNull (data !! "url"))); [done|].
  by destruct (py_truthy (from_option id JNull (data !! "webhook"))).
Qed.

Lemma slack_url_priority_witness :
  fst (_slack_url demo_world (demo_cfg false (Some "slack/webhook")) demo_state)
  = Ok (py_or (field "url" demo_secret_good)
          (py_or (field "webhook" demo_secret_good)
             (field "SLACK_WEBHOOK_URL" demo_secret_good))).
Proof.
  apply (slack_url_priority demo_world (demo_cfg false (Some "slack/webhook")) demo_state
           "slack/webhook"
           {[ "SecretString" := JStr (show_json true demo_secret_good) ]}
           {[ "url" := JStr "https://hooks.slack.example/services/T0/B0/X" ]});
    [reflexivity | discriminate | reflexivity | vm_compute; reflexivity].
Defined.

(** ** The ingestion handler *)

Lemma parse_raw_key day lead_id :
  str_has "/" day = false → str_has "/" lead_id = false →
  parse_key (raw_key day lead_id) = Ok (Some (day, lead_id)).
Proof.
  intros Hd Hi. unfold parse_key.
  replace (String.prefix (RAW_PREFIX +:+ "/") (raw_key day lead_id)) with true
    by reflexivity.
  rewrite (raw_key_parts _ _ Hd Hi).
  rewrite !bool_decide_eq_true_2 by done.
  cbn.
  change ("dt=" +:+ day) with ("dt" +:+ String "=" day).
  change ("lead_id=" +:+ lead_id) with ("lead_id" +:+ String "=" lead_id).
  by rewrite !str_split_once.
Qed.

Lemma envelope_event body now : Ingest.envelope_of body now !! "event" = body !! "event".
Proof. unfold Ingest.envelope_of. by rewrite !lookup_insert_ne. Qed.

(** The three ways a call of the ingestion handler ends: a 400 response
    and nothing done; an exception and nothing written; a 200 response after
    one write of the envelope of a body whose identifier was found. *)
Lemma ingest_cases W cfg event st :
  (∃ resp, Ingest.lambda_handler W cfg event st = (Ok resp, st)
           ∧ field "statusCode" resp = JInt 400)
  ∨ (∃ e st', Ingest.lambda_handler W cfg event st = (Raise e, st')
              ∧ s3_objects st' = s3_objects st
              ∧ (trace st' = trace st ∨ trace st' = ENow :: trace st))
  ∨ (∃ body lead_id day,
       Ingest.lead_id_of (JDict body) = Ok lead_id
       ∧ py_truthy lead_id = true
       ∧ let now := now_iso W (trace st) in
         let envelope := JDict (Ingest.envelope_of body now) in
         let key := Ingest.object_key W cfg day lead_id in
         Ingest.lambda_handler W cfg event st
         = (Ok (Ingest.response W 200
                  (JDict (list_to_map [("ok", JBool true); ("lead_id", lead_id)]))),
            mkState (<[(Ingest.RAW_BUCKET cfg, key) := json_dumps W true envelope]>
                       (s3_objects st))
                    (EPutObject (Ingest.RAW_BUCKET cfg) key envelope :: ENow :: trace st))).
Proof.
  remember (Ingest.lambda_handler W cfg event st) as run eqn:Hrun. revert Hrun.
  unfold Ingest.lambda_handler.
  unfold try_except at 1, mbind at 1, M_bind at 1, lift at 1, mbind at 1, M_bind at 1.
  destruct (py_get event "body" JNull) as [b|]; [|intros ->; left; by eexists].
  unfold lift at 1, mbind at 1, M_bind at 1.
  destruct (loads W (py_or b (JStr "{}"))) as [body|]; [|intros ->; left; by eexists].
  cbn [mret M_ret].
  unfold lift at 1, mbind at 1, M_bind at 1.
  destruct (Ingest.lead_id_of body) as [lead_id|e] eqn:Hid;
    [|intros ->; right; left; eexists _, _; by eauto].
  unfold lift at 1. cbv beta iota.
  destruct (py_truthy lead_id) eqn:Htruthy; cbn [negb]; cbv beta iota;
    [|intros ->; left; by eexists].
  destruct body as [| | | | | |body];
    try (intros ->; right; left; eexists _, _; by eauto).
  unfold mbind at 1, M_bind at 1, lift at 1. cbn [Ingest.spread]. cbv beta iota.
  unfold Ingest._iso_now, history, emit.
  unfold mbind at 1, M_bind at 1, mbind at 1, M_bind at 1, mbind at 1, M_bind at 1.
  cbn [mret M_ret s3_objects trace]. cbv beta iota.
  unfold mbind at 1, M_bind at 1. cbv beta iota.
  destruct (ev ← py_get _ "event" (JDict ∅); d ← py_get ev "date_created" (JStr EmptyString);
            Ingest.slice10 d) as [day|e];
    [|intros ->; right; left; eexists _, _; by eauto].
  unfold history. unfold mbind at 1, M_bind at 1. cbv beta iota. cbn [trace].
  unfold mbind at 1, M_bind at 1.
  match goal with |- context [_write_json_to_s3 W ?b ?k ?p ?s] =>
    destruct (write_json_cases W b k p s) as [(_ & _ & ->)|(e & -> & _)]
  end.
  - intros ->.
    right. right. eexists body, lead_id, _. split; [done|]. split; [done|]. reflexivity.
  - intros ->. right. left. eexists _, _. by eauto.
Qed.

(** X19. The ingestion handler stores an object only when it answers 200:
    a call that answers 400 (no decodable body, no identifier) does nothing,
    a call that raises leaves the store as it was, and a call that answers
    200 has put exactly one object, in the raw bucket. *)
Theorem ingest_writes_only_on_200 (W : World) (cfg : Ingest.Config) (event : json)
    (st : State) :
  let r := fst (Ingest.lambda_handler W cfg event st) in
  let st' := snd (Ingest.lambda_handler W cfg event st) in
  (∃ resp, r = Ok resp ∧ field "statusCode" resp = JInt 400 ∧ st' = st)
  ∨ (is_Raise r ∧ s3_objects st' = s3_objects st)
  ∨ (∃ resp key envelope,
       r = Ok resp ∧ field "statusCode" resp = JInt 200
       ∧ s3_objects st'
         = <[(Ingest.RAW_BUCKET cfg, key) := json_dumps W true envelope]> (s3_objects st)
       ∧ trace st' = EPutObject (Ingest.RAW_BUCKET cfg) key envelope :: ENow :: trace st).
Proof.
  cbv zeta.
  destruct (ingest_cases W cfg event st)
    as [(resp & -> & Hcode)|[(e & st' & -> & Hs & _)|(body & lead_id & day & _ & _ & Hrun)]].
  - left. by exists resp.
  - right. left. split; [by exists e | done].
  - right. right. cbv zeta in Hrun. rewrite Hrun. by eexists _, _, _.
Qed.

(** X20. Whatever the ingestion handler stores can be read by line 139 of
    the enrichment handler: the stored envelope is an object whose [event],
    when present, is an object, so [raw.get("event", {}).get("data", {})] does
    not raise on it; and the envelope is stamped with a null [assignee] and the
    [enrichment_status] "pending". *)
Theorem ingested_object_readable (W : World) (cfg : Ingest.Config) (event : json)
    (st : State) (bucket key : string) (payload : json) :
  trace (snd (Ingest.lambda_handler W cfg event st))
  = EPutObject bucket key payload :: ENow :: trace st →
  is_Ok (raw_data payload)
  ∧ field "assignee" payload = JNull
  ∧ field "enrichment_status" payload = JStr "pending".
Proof.
  intros Htrace.
  destruct (ingest_cases W cfg event st)
    as [(resp & Hrun & _)|[(e & st' & Hrun & _ & Ht)|(body & lead_id & day & Hid & _ & Hrun)]].
  - rewrite Hrun in Htrace. simpl in Htrace.
    apply (f_equal length) in Htrace. simpl in Htrace. lia.
  - rewrite Hrun in Htrace. simpl in Htrace. destruct Ht as [Ht|Ht]; rewrite Ht in Htrace.
    + apply (f_equal length) in Htrace. simpl in Htrace. lia.
    + apply (f_equal length) in Htrace. simpl in Htrace. lia.
  - cbv zeta in Hrun. rewrite Hrun in Htrace. simpl in Htrace.
    injection Htrace as _ _ <-.
    split; [|split].
    2: { unfold field, Ingest.envelope_of.
         rewrite lookup_insert_ne by done. by rewrite lookup_insert_eq. }
    2: { unfold field, Ingest.envelope_of. by rewrite lookup_insert_eq. }
    unfold raw_data. simpl. rewrite envelope_event.
    unfold Ingest.lead_id_of in Hid. simpl in Hid.
    destruct (body !! "event") as [[| | | | | |ev]|]; simpl in *; try done; by eexists.
Qed.

(** The day of a raw object is the first ten characters of the date of
    creation, not its first ten bytes: two bytes for one accented letter. *)
Example slice_characters :
  let e_acute := String (ascii_of_nat 195) (String (ascii_of_nat 169) EmptyString) in
  Ingest.slice10 (JStr (e_acute +:+ "t" +:+ e_acute +:+ " 2024-03-05"))
  = Ok (JStr (e_acute +:+ "t" +:+ e_acute +:+ " 2024-0"))
  ∧ str_take 10 "2024-03-05T09:30:00+00:00" = "2024-03-05".
Proof. split; reflexivity. Qed.

Section IngestRun.

Context (W : World) (cfg : Ingest.Config) (event : json) (st : State).
Context (text lead_id created day : string) (body ev : gmap string json).

Hypothesis H_body : py_get event "body" JNull = Ok (JStr text).
Hypothesis H_text : text ≠ EmptyString.
Hypothesis H_decode : json_loads W text = Ok (JDict body).
Hypothesis H_event : body !! "event" = Some (JDict ev).
Hypothesis H_lead : ev !! "lead_id" = Some (JStr lead_id).
Hypothesis H_lead_ne : lead_id ≠ EmptyString.
Hypothesis H_created : ev !! "date_created" = Some (JStr created).
Hypothesis H_day : str_take 10 created = day.
Hypothesis H_day_ne : day ≠ EmptyString.
Hypothesis H_write :
  write_accepted W (Ingest.RAW_BUCKET cfg)
    (Ingest.RAW_PREFIX cfg +:+ "/dt=" +:+ day +:+ "/lead_id=" +:+ lead_id
       +:+ "/crm_event_" +:+ lead_id +:+ ".json")
    (JDict (Ingest.envelope_of body (now_iso W (trace st)))).

(** The call for a webhook body that names its lead and its date of
    creation under [event], when the store accepts the envelope. *)
Lemma ingest_run :
  let envelope := JDict (Ingest.envelope_of body (now_iso W (trace st))) in
  let key := Ingest.RAW_PREFIX cfg +:+ "/dt=" +:+ day +:+ "/lead_id=" +:+ lead_id
               +:+ "/crm_event_" +:+ lead_id +:+ ".json" in
  Ingest.lambda_handler W cfg event st
  = (Ok (Ingest.response W 200
           (JDict (list_to_map [("ok", JBool true); ("lead_id", JStr lead_id)]))),
     mkState (<[(Ingest.RAW_BUCKET cfg, key) := json_dumps W true envelope]> (s3_objects st))
             (EPutObject (Ingest.RAW_BUCKET cfg) key envelope :: ENow :: trace st)).
Proof.
  cbv zeta. unfold Ingest.lambda_handler.
  assert (py_or (JStr text) (JStr "{}") = JStr text) as Hor.
  { unfold py_or. simpl. apply String.eqb_neq in H_text. by rewrite H_text. }
  assert (py_truthy (JStr lead_id) = true) as Hlead_truthy.
  { simpl. apply String.eqb_neq in H_lead_ne. by rewrite H_lead_ne. }
  assert (Ingest.lead_id_of (JDict body) = Ok (JStr lead_id)) as Hid.
  { unfold Ingest.lead_id_of. simpl. rewrite H_event. simpl. rewrite H_lead. simpl.
    apply String.eqb_neq in H_lead_ne. by rewrite H_lead_ne. }
  assert ((e ← py_get (JDict (Ingest.envelope_of body (now_iso W (trace st)))) "event"
                 (JDict ∅);
           d ← py_get e "date_created" (JStr EmptyString);
           Ingest.slice10 d) = Ok (JStr day)) as Hday.
  { simpl. rewrite envelope_event, H_event. simpl. rewrite H_created. simpl.
    by rewrite H_day. }
  assert (py_truthy (JStr day) = true) as Hday_truthy.
  { simpl. apply String.eqb_neq in H_day_ne. by rewrite H_day_ne. }
  erewrite bind_Ok.
  2: { apply try_except_Ok.
       erewrite bind_Ok; [|unfold lift; by rewrite H_body].
       erewrite bind_Ok; [|unfold lift; rewrite Hor; cbn [loads]; by rewrite H_decode].
       reflexivity. }
  cbv beta iota.
  erewrite bind_Ok; [|unfold lift; by rewrite Hid].
  rewrite Hlead_truthy. cbn [negb]. cbv beta iota.
  erewrite bind_Ok; [|reflexivity].
  erewrite bind_Ok; [|reflexivity].
  erewrite bind_Ok; [|unfold lift; by rewrite Hday].
  erewrite bind_Ok; [|reflexivity].
  rewrite Hday_truthy.
  erewrite bind_Ok; [|exact (write_accepted_Ok _ _ _ _ _ H_write)].
  reflexivity.
Qed.

End IngestRun.

(** X21. For a webhook body whose [event] names the lead and the date of
    creation (texts without slash), with the default raw prefix and a store
    that accepts the stamped body (its text holding no surrogate), the
    ingestion handler answers 200 and stores the stamped body under
    [crm/lead_created/dt=<first ten characters of the date>/lead_id=<ID>/crm_event_<ID>.json];
    the enrichment handler parses this key back into that day and that ID. *)
Theorem ingest_key_parses (W : World) (cfg : Ingest.Config) (event : json) (st : State)
    (text lead_id created : string) (body ev : gmap string json) :
  py_get event "body" JNull = Ok (JStr text) →
  text ≠ EmptyString →
  json_loads W text = Ok (JDict body) →
  body !! "event" = Some (JDict ev) →
  ev !! "lead_id" = Some (JStr lead_id) →
  lead_id ≠ EmptyString →
  ev !! "date_created" = Some (JStr created) →
  str_take 10 created ≠ EmptyString →
  Ingest.RAW_PREFIX cfg = "crm/lead_created" →
  str_has "/" (str_take 10 created) = false →
  str_has "/" lead_id = false →
  write_accepted W (Ingest.RAW_BUCKET cfg) (raw_key (str_take 10 created) lead_id)
    (JDict (Ingest.envelope_of body (now_iso W (trace st)))) →
  ∃ key resp envelope,
    Ingest.lambda_handler W cfg event st
    = (Ok resp,
       mkState (<[(Ingest.RAW_BUCKET cfg, key) := json_dumps W true (JDict envelope)]>
                  (s3_objects st))
               (EPutObject (Ingest.RAW_BUCKET cfg) key (JDict envelope) :: ENow :: trace st))
    ∧ field "statusCode" resp = JInt 200
    ∧ key = "crm/lead_created/dt=" +:+ str_take 10 created +:+ "/lead_id=" +:+ lead_id
            +:+ "/crm_event_" +:+ lead_id +:+ ".json"
    ∧ parse_key key = Ok (Some (str_take 10 created, lead_id))
    ∧ envelope = Ingest.envelope_of body (now_iso W (trace st)).
Proof.
  intros Hb Ht Hd He Hl Hln Hc Hdn Hprefix Hds His Hw.
  unfold raw_key, RAW_PREFIX in Hw. rewrite <- Hprefix in Hw.
  pose proof (ingest_run W cfg event st text lead_id created (str_take 10 created) body ev
                Hb Ht Hd He Hl Hln Hc eq_refl Hdn Hw) as Hrun.
  cbv zeta in Hrun. rewrite Hprefix in Hrun.
  eexists _, _, _. split; [exact Hrun|].
  split; [reflexivity|]. split; [reflexivity|]. split; [|reflexivity].
  by apply (parse_raw_key (str_take 10 created) lead_id).
Qed.

Lemma ingest_key_parses_witness :
  ∃ key resp envelope,
    Ingest.lambda_handler demo_world_ingest demo_ingest_cfg demo_webhook_event demo_state
    = (Ok resp,
       mkState (<[("raw-bucket", key) := show_json true (JDict envelope)]>
                  (s3_objects demo_state))
               [EPutObject "raw-bucket" key (JDict envelope); ENow])
    ∧ field "statusCode" resp = JInt 200
    ∧ key = "crm/lead_created/dt=2024-03-05/lead_id=L8/crm_event_L8.json"
    ∧ parse_key key = Ok (Some ("2024-03-05", "L8")).
Proof.
  edestruct (ingest_key_parses demo_world_ingest demo_ingest_cfg demo_webhook_event
               demo_state (show_json true demo_webhook_body) "L8"
               "2024-03-05T09:30:00+00:00"
               (list_to_map
                  [("event", JDict (list_to_map
                      [("lead_id", JStr "L8");
                       ("date_created", JStr "2024-03-05T09:30:00+00:00");
                       ("data", JDict (list_to_map
                          [("display_name", JStr "John Roe");
                           ("status_label", JStr "Potential")]))]))])
               (list_to_map
                  [("lead_id", JStr "L8");
                   ("date_created", JStr "2024-03-05T09:30:00+00:00");
                   ("data", JDict (list_to_map
                      [("display_name", JStr "John Roe");
                       ("status_label", JStr "Potential")]))]))
    as (key & resp & envelope & Hrun & Hcode & Hkey & Hparse & _);
    [try (vm_compute; first [reflexivity | discriminate]) .. |].
  { split; [vm_compute; reflexivity | intros h; reflexivity]. }
  exists key, resp, envelope. split; [exact Hrun|]. split; [exact Hcode|].
  split; [exact Hkey | exact Hparse].
Defined.

Lemma ingested_object_readable_witness :
  is_Ok (raw_data demo_webhook_envelope)
  ∧ field "assignee" demo_webhook_envelope = JNull
  ∧ field "enrichment_status" demo_webhook_envelope = JStr "pending".
Proof.
  apply (ingested_object_readable demo_world_ingest demo_ingest_cfg demo_webhook_event
           demo_state "raw-bucket"
           "crm/lead_created/dt=2024-03-05/lead_id=L8/crm_event_L8.json").
  vm_compute. reflexivity.
Defined.

(** An [event] entry that is no object makes the "defensive extraction"
    raise. *)
Lemma lead_id_of_non_object body v :
  body !! "event" = Some v →
  (∀ ev, v ≠ JDict ev) →
  Ingest.lead_id_of (JDict body) = Raise (AttributeError v "get").
Proof.
  intros Hev Hv. unfold Ingest.lead_id_of. simpl. rewrite Hev. simpl.
  destruct v; try done. by destruct (Hv d).
Qed.

(** X22. A webhook body that decodes to an object whose [event] entry is
    not an object (null, a text, a list) is not answered with 400: the
    extraction of the identifier raises AttributeError outside the [try], the
    exception leaves the handler and nothing is stored. *)
Theorem ingest_non_object_event_raises (W : World) (cfg : Ingest.Config) (event : json)
    (st : State) (text : string) (body : gmap string json) (v : json) :
  py_get event "body" JNull = Ok (JStr text) →
  text ≠ EmptyString →
  json_loads W text = Ok (JDict body) →
  body !! "event" = Some v →
  (∀ ev, v ≠ JDict ev) →
  Ingest.lambda_handler W cfg event st = (Raise (AttributeError v "get"), st).
Proof.
  intros Hb Ht Hd Hev Hv. unfold Ingest.lambda_handler.
  unfold try_except at 1, mbind at 1, M_bind at 1, lift at 1, mbind at 1, M_bind at 1.
  rewrite Hb.
  unfold lift at 1, mbind at 1, M_bind at 1.
  assert (py_or (JStr text) (JStr "{}") = JStr text) as ->.
  { unfold py_or. simpl. apply String.eqb_neq in Ht. by rewrite Ht. }
  simpl loads. rewrite Hd. cbn [mret M_ret].
  unfold lift at 1, mbind at 1, M_bind at 1.
  by rewrite (lead_id_of_non_object body v Hev Hv).
Qed.

Lemma ingest_non_object_event_raises_witness :
  Ingest.lambda_handler
    (mkWorld (λ _, Ok (JDict {[ "event" := JNull ]})) show_json id (show_json false)
       (now_iso demo_world) demo_urlopen_get demo_get_secret_value demo_Request
       (urlopen_post demo_world) (error_body demo_world) (put_object demo_world))
    demo_ingest_cfg (JDict {[ "body" := JStr "{...}" ]}) demo_state
  = (Raise (AttributeError JNull "get"), demo_state).
Proof.
  apply (ingest_non_object_event_raises _ demo_ingest_cfg _ demo_state "{...}"
           {[ "event" := JNull ]} JNull); first [reflexivity | discriminate].
Defined.

(** ** From the webhook to the curated artifact *)

(** X23. The two handlers composed, with a store that accepts the raw
    object and the curated artifact (their texts holding no surrogate):
    after the ingestion handler has stored a webhook body whose [event] names
    the lead, its date of creation and a [data] object, the enrichment
    handler, run on the notification of that object with a lookup that
    answers steadily, writes the curated artifact of that lead and day (the
    first ten characters of the date), with the display name and the status
    label of [data]; the raw object is still there. *)
Theorem ingest_then_enrich (W : World) (icfg : Ingest.Config) (cfg : Config)
    (event rec : json) (st : State) (text lead_id created status : string)
    (body ev data owner : gmap string json) :
  py_get event "body" JNull = Ok (JStr text) →
  text ≠ EmptyString →
  json_loads W text = Ok (JDict body) →
  body !! "event" = Some (JDict ev) →
  ev !! "lead_id" = Some (JStr lead_id) →
  lead_id ≠ EmptyString →
  ev !! "date_created" = Some (JStr created) →
  str_take 10 created ≠ EmptyString →
  ev !! "data" = Some (JDict data) →
  Ingest.RAW_PREFIX icfg = "crm/lead_created" →
  str_has "/" (str_take 10 created) = false →
  str_has "/" lead_id = false →
  rec_bucket rec = Ok (JStr (Ingest.RAW_BUCKET icfg)) →
  rec_key W rec = Ok (raw_key (str_take 10 created) lead_id) →
  json_loads W (json_dumps W true
                  (JDict (Ingest.envelope_of body (now_iso W (trace st)))))
  = Ok (JDict (Ingest.envelope_of body (now_iso W (trace st)))) →
  steady_lookup W cfg lead_id owner status →
  write_accepted W (Ingest.RAW_BUCKET icfg) (raw_key (str_take 10 created) lead_id)
    (JDict (Ingest.envelope_of body (now_iso W (trace st)))) →
  (∀ h, write_accepted W (CURATED_BUCKET cfg) (curated_key (str_take 10 created) lead_id)
          (JDict (enriched_of data owner lead_id status (now_iso W h)))) →
  ∃ enriched,
    let st1 := snd (Ingest.lambda_handler W icfg event st) in
    let st2 := snd (process_rec W cfg rec st1) in
    s3_objects st2 !! (CURATED_BUCKET cfg, curated_key (str_take 10 created) lead_id)
    = Some (json_dumps W true (JDict enriched))
    ∧ enriched !! "lead_id" = Some (JStr lead_id)
    ∧ enriched !! "display_name" = Some (from_option id JNull (data !! "display_name"))
    ∧ enriched !! "status_label" = Some (from_option id JNull (data !! "status_label"))
    ∧ enriched !! "lead_owner" = Some (from_option id JNull (owner !! "lead_owner"))
    ∧ enriched !! "owner_lookup_status" = Some (JStr status)
    ∧ s3_objects st2 !! (Ingest.RAW_BUCKET icfg, raw_key (str_take 10 created) lead_id)
      = Some (json_dumps W true (JDict (Ingest.envelope_of body (now_iso W (trace st))))).
Proof.
  intros Hb Ht Hd He Hl Hln Hc Hdn Hdata Hprefix Hds His Hrb Hrk Hcodec Hsteady Hw Hwc.
  unfold raw_key, RAW_PREFIX in Hw. rewrite <- Hprefix in Hw.
  pose proof (ingest_run W icfg event st text lead_id created (str_take 10 created) body ev
                Hb Ht Hd He Hl Hln Hc eq_refl Hdn Hw) as Hrun.
  cbv zeta in Hrun. rewrite Hprefix in Hrun.
  change ("crm/lead_created" +:+ "/dt=" +:+ str_take 10 created +:+ "/lead_id=" +:+ lead_id
            +:+ "/crm_event_" +:+ lead_id +:+ ".json")
    with (raw_key (str_take 10 created) lead_id) in Hrun.
  cbv zeta. rewrite Hrun. cbn [snd].
  set (envelope := Ingest.envelope_of body (now_iso W (trace st))) in *.
  set (key := raw_key (str_take 10 created) lead_id) in *.
  set (st1 := mkState _ _).
  assert (s3_objects st1 !! (Ingest.RAW_BUCKET icfg, key)
          = Some (json_dumps W true (JDict envelope))) as Hobj
    by (unfold st1; cbn [s3_objects]; by rewrite lookup_insert_eq).
  assert (raw_fields (JDict envelope) = Some data) as Hraw.
  { simpl. unfold envelope. rewrite envelope_event, He. by rewrite Hdata. }
  destruct (process_rec_steady W cfg rec st1 (Ingest.RAW_BUCKET icfg) key
              (str_take 10 created) lead_id _ (JDict envelope) data
              Hrb Hrk (parse_raw_key _ _ Hds His) Hobj Hcodec Hraw owner status Hsteady Hwc)
    as (tr & new & _ & Hst2 & _ & _).
  cbv zeta in Hst2. rewrite Hst2. cbn [s3_objects].
  eexists. split; [by rewrite lookup_insert_eq|].
  do 5 (split; [reflexivity|]).
  rewrite lookup_insert_ne; [exact Hobj|].
  intros [= _ Hkeys].
Qed.

(** The webhook call of the examples, then the delivery for its object with
    the lookup switched off. *)
Lemma ingest_then_enrich_witness :
  ∃ enriched,
    let st1 := snd (Ingest.lambda_handler demo_world_ingest demo_ingest_cfg
                      demo_webhook_event demo_state) in
    let st2 := snd (process_rec demo_world_ingest (demo_cfg true None)
                      (JDict {[ "s3" := JDict (list_to_map
                         [("bucket", JDict {[ "name" := JStr "raw-bucket" ]});
                          ("object", JDict {[ "key" := JStr (raw_key "2024-03-05" "L8") ]})]) ]})
                      st1) in
    s3_objects st2 !! ("curated-bucket", curated_key "2024-03-05" "L8")
    = Some (show_json true (JDict enriched))
    ∧ enriched !! "lead_id" = Some (JStr "L8")
    ∧ enriched !! "display_name" = Some (JStr "John Roe")
    ∧ enriched !! "status_label" = Some (JStr "Potential")
    ∧ enriched !! "lead_owner" = Some JNull
    ∧ enriched !! "owner_lookup_status" = Some (JStr "skipped").
Proof.
  edestruct (ingest_then_enrich demo_world_ingest demo_ingest_cfg (demo_cfg true None)
               demo_webhook_event
               (JDict {[ "s3" := JDict (list_to_map
                  [("bucket", JDict {[ "name" := JStr "raw-bucket" ]});
                   ("object", JDict {[ "key" := JStr (raw_key "2024-03-05" "L8") ]})]) ]})
               demo_state (show_json true demo_webhook_body) "L8"
               "2024-03-05T09:30:00+00:00" "skipped"
               (list_to_map
                  [("event", JDict (list_to_map
                      [("lead_id", JStr "L8");
                       ("date_created", JStr "2024-03-05T09:30:00+00:00");
                       ("data", JDict (list_to_map
                          [("display_name", JStr "John Roe");
                           ("status_label", JStr "Potential")]))]))])
               (list_to_map
                  [("lead_id", JStr "L8");
                   ("date_created", JStr "2024-03-05T09:30:00+00:00");
                   ("data", JDict (list_to_map
                      [("display_name", JStr "John Roe");
                       ("status_label", JStr "Potential")]))])
               (list_to_map
                  [("display_name", JStr "John Roe"); ("status_label", JStr "Potential")])
               ∅)
    as (enriched & H1 & H2 & H3 & H4 & H5 & H6 & _);
    [try (vm_compute; first [reflexivity | discriminate]) .. |].
  { left. by repeat split. }
  { split; [vm_compute; reflexivity | intros h; reflexivity]. }
  { intros h. split; [vm_compute; reflexivity | intros h'; reflexivity]. }
  exists enriched. cbv zeta in *.
  split; [exact H1|]. split; [exact H2|]. split; [exact H3|]. split; [exact H4|].
  split; [exact H5 | exact H6].
Defined.

Lemma parse_key_skips_iff_witness :
  parse_key "crm/lead_created/readme.txt" = Ok None
  ∧ (String.prefix (RAW_PREFIX +:+ "/") "other/events/x.json" = false
     ∨ (length (str_split "/" None "other/events/x.json") < 5)%nat).
Proof.
  split.
  - apply (parse_key_skips_iff "crm/lead_created/readme.txt"). right. simpl. lia.
  - apply (parse_key_skips_iff "other/events/x.json"). reflexivity.
Defined.

(** ** Which exception can leave the notification step *)


(** The second way, on the examples: the POST is answered 502 and the
    connection breaks while the body of the answer is read. *)
Example error_body_escapes_demo :
  let W := mkWorld demo_json_loads show_json id (show_json false) (now_iso demo_world)
             demo_urlopen_get demo_get_secret_value demo_Request
             (λ _ _ _, Raise (http_error 502 "HTTP Error 502: Bad Gateway"))
             (λ _, Raise (plain_exc "IncompleteRead" "IncompleteRead(0 bytes read)"))
             (put_object demo_world) in
  fst (notify W (demo_cfg true (Some "slack/webhook"))
         (JDict (enriched_of ∅ ∅ "L2" "skipped" "2024-03-02T00:00:00+00:00")) "L2"
         (mkState ∅ []))
  = Raise (plain_exc "IncompleteRead" "IncompleteRead(0 bytes read)").
Proof. vm_compute. reflexivity. Qed.

(** ** The classification, case by case *)

(** X25. An error is classified permanent exactly when it is an HTTPError
    with a code from 400 to 499, and unknown exactly when it is no URLError
    (an HTTPError being one). *)
Theorem classify_lookup_error_iff (err : PyExc) :
  (classify_lookup_error err = "permanent"
   ↔ isinstance_HTTPError err = true ∧ 400 ≤ exc_code err < 500)
  ∧ (classify_lookup_error err = "unknown" ↔ isinstance_URLError err = false).
Proof.
  unfold classify_lookup_error, isinstance_HTTPError, isinstance_URLError, exc_code.
  destruct (exc_kind err) as [code| |]; simpl.
  - destruct (Z.leb_spec 400 code), (Z.ltb_spec code 500),
      (Z.leb_spec 500 code), (Z.ltb_spec code 600); simpl;
      (split; split; [intros; try done; try lia; by split; [|lia] | try done; intros [_ ?]; lia
                     | done | done]).
  - split; split; try done. by intros [].
  - split; split; try done. by intros [].
Qed.

Lemma classify_lookup_error_iff_witness :
  classify_lookup_error (http_error 429 "Too Many Requests") = "permanent"
  ∧ classify_lookup_error (plain_exc "TimeoutError" "timed out") = "unknown".
Proof.
  split.
  - apply (proj1 (classify_lookup_error_iff (http_error 429 "Too Many Requests"))).
    split; [reflexivity | cbv [exc_code http_error exc_kind]; lia].
  - apply (proj2 (classify_lookup_error_iff (plain_exc "TimeoutError" "timed out"))).
    reflexivity.
Defined.

(** An HTTP 304 answer. *)
Lemma classify_http_other_code_witness :
  classify_lookup_error (http_error 304 "Not Modified") = "transient".
Proof.
  apply (classify_http_other_code (http_error 304 "Not Modified"));
    [reflexivity | cbv [exc_code http_error exc_kind]; lia].
Defined.
